(** * Referral-commerce backend: codes, redemptions and payouts

    A shallow embedding of the Express route handlers of [src/korpo.js] and
    of the later server revision kept in [src/unnamed/part_001] (the file
    that starts at its line 396), together with the properties of the
    promo/referral-code lifecycle and of the payout state machine.

    Conventions of the embedding.
    - A Firestore collection whose documents are created with [addDoc]
      (codes, tracking entries, payout requests) is a [list]; the generated
      document id is the position of the document, and a query returns the
      matching documents in that order, so [snapshot.docs[0]] is the first
      match.  A collection addressed with [doc(db, name, id)] on a caller
      chosen id (users, partners, ambassadors) is a [gmap string].
    - JavaScript numbers that carry money are exact rationals [Q]; a field
      that may be [undefined] (or a product that may be [NaN]) is an
      [option], with [None] for [undefined]/[NaN].
    - A [Date] is its time value in milliseconds, an integer [Z].
    - The Stripe client is a function from the arguments of
      [stripe.transfers.create] to either the message of the error it raises
      or the id of the transfer it created. *)

From Stdlib Require Import ZArith QArith Qround Lqa Lia String Ascii List.
From stdpp Require Import base option list gmap strings pretty.

Local Open Scope string_scope.
Local Open Scope list_scope.
Local Open Scope Z_scope.

(** ** Numbers *)

(** [Math.round(x)]: the nearest integer, halves towards plus infinity. *)
Definition Math_round (x : Q) : Z := Qfloor (x + (1 # 2)).

(** [x || 0] on a number field. *)
Definition or0 (x : option Q) : Q := default 0%Q x.

(** [x <= 0]; a comparison with [NaN] is false. *)
Definition le0 (x : option Q) : bool :=
  match x with
  | Some q => Qle_bool q 0
  | None => false
  end.

(** [!s] on a string: [undefined] and the empty string are falsy. *)
Definition missing (s : option string) : bool :=
  match s with
  | Some s => bool_decide (s = "")
  | None => true
  end.

(** A string that has to be truthy: [None] when [!s]. *)
Definition required (s : option string) : option string :=
  if missing s then None else s.

(** [increment(x)] of Firestore: a missing field counts as zero. *)
Definition increment (x : Q) (field : option Q) : option Q := Some (or0 field + x)%Q.

Definition increment1 (field : option Z) : option Z := Some (default 0 field + 1).

(** [d.setDate(d.getDate() + n)] on a server whose clock runs in UTC. *)
Definition msPerDay : Z := 86400000.

Definition addDays (t n : Z) : Z := t + n * msPerDay.

(** [s.toUpperCase()] on ASCII text. *)
Definition upper (c : ascii) : ascii :=
  let n := nat_of_ascii c in
  if (97 <=? n)%nat && (n <=? 122)%nat then ascii_of_nat (n - 32) else c.

Fixpoint toUpperCase (s : string) : string :=
  match s with
  | EmptyString => EmptyString
  | String c s' => String (upper c) (toUpperCase s')
  end.

(** [s.slice(-n)]: the last [n] characters, the whole string when shorter. *)
Definition slice_last (n : nat) (s : string) : string :=
  String.substring (String.length s - n) n s.

(** ** Documents *)

(** A partner or an ambassador document; only the fields the handlers below
    read or write.  [r_commission] is the percentage stored by [korpo.js],
    [r_commissionRate] the fraction stored by the later revision;
    [r_totalRevenue] is [totalPartnerRevenue] / [totalAmbassadorRevenue];
    [r_code] and [r_codeId] are [promoCode]/[promoId] or
    [referralCode]/[referralCodeId]; [r_connectAccountId] is
    [stripe.connectAccountId]; [r_lastUpdated] is [lastUpdated] or
    [lastReferralUsedAt]. *)
Record Referrer := mkReferrer {
  r_status : string;
  r_code : option string;
  r_codeId : option nat;
  r_connectAccountId : option string;
  r_commission : option Q;
  r_commissionRate : option Q;
  r_commissionEarned : option Q;
  r_availableBalance : option Q;
  r_totalRevenue : option Q;
  r_totalDiscountGiven : option Q;
  r_totalReferrals : option Z;
  r_timesUsed : option Z;
  r_leftPromo : option Z;
  r_totalPromo : option Z;
  r_lastUpdated : option Z;
  r_lastPayoutAt : option Z
}.

(** A promo code or a referral code.  [c_code] is the field the handlers
    call [code], [promoCode] or [referralCode]; [c_owner] is [partnerId] or
    [ambassadorId]; [c_discount] is [discountPercentage] in [korpo.js] and
    [discountRate] later. *)
Record Code := mkCode {
  c_code : string;
  c_owner : option string;
  c_discount : option Q;
  c_validFrom : option Z;
  c_validTo : option Z;
  c_usageLimit : option Z;
  c_timesUsed : Z;
  c_status : string
}.

(** An entry of [partnerTracking]. *)
Record PartnerTracking := mkPartnerTracking {
  pt_userId : string;
  pt_promoCode : string;
  pt_promoId : nat;
  pt_partnerId : option string;
  pt_usedAt : Z;
  pt_originalAmount : Q;
  pt_discountPercentage : Q;
  pt_discountAmount : Q;
  pt_finalAmount : Q;
  pt_companyRevenue : Q;
  pt_partnerRevenue : Q;
  pt_partnerSharePercentage : Q
}.

(** An entry of [referralTracking]. *)
Record ReferralTracking := mkReferralTracking {
  rt_userId : string;
  rt_ambassadorId : option string;
  rt_referralCode : string;
  rt_referralId : nat;
  rt_usedAt : Z;
  rt_amount : option Q;
  rt_commissionRate : Q;
  rt_commissionEarned : Q
}.

(** A payout request ([ambassadorPayouts] / [partnerPayouts]). *)
Record Payout := mkPayout {
  p_referrerId : string;
  p_connectedAccountId : string;
  p_amount : Q;
  p_status : string;
  p_createdAt : Z;
  p_approvedAt : option Z;
  p_cancelledAt : option Z;
  p_transferId : option string
}.

(** The document store. *)
Record Db := mkDb {
  users : gset string;
  partners : gmap string Referrer;
  ambassadors : gmap string Referrer;
  promoCodes : list Code;
  referralCodes : list Code;
  partnerTracking : list PartnerTracking;
  referralTracking : list ReferralTracking;
  ambassadorPayouts : list Payout;
  partnerPayouts : list Payout
}.

Definition set_partners (f : gmap string Referrer -> gmap string Referrer) (d : Db) : Db :=
  mkDb (users d) (f (partners d)) (ambassadors d) (promoCodes d) (referralCodes d)
       (partnerTracking d) (referralTracking d) (ambassadorPayouts d) (partnerPayouts d).

Definition set_ambassadors (f : gmap string Referrer -> gmap string Referrer) (d : Db) : Db :=
  mkDb (users d) (partners d) (f (ambassadors d)) (promoCodes d) (referralCodes d)
       (partnerTracking d) (referralTracking d) (ambassadorPayouts d) (partnerPayouts d).

Definition set_promoCodes (f : list Code -> list Code) (d : Db) : Db :=
  mkDb (users d) (partners d) (ambassadors d) (f (promoCodes d)) (referralCodes d)
       (partnerTracking d) (referralTracking d) (ambassadorPayouts d) (partnerPayouts d).

Definition set_referralCodes (f : list Code -> list Code) (d : Db) : Db :=
  mkDb (users d) (partners d) (ambassadors d) (promoCodes d) (f (referralCodes d))
       (partnerTracking d) (referralTracking d) (ambassadorPayouts d) (partnerPayouts d).

Definition set_partnerTracking (f : list PartnerTracking -> list PartnerTracking) (d : Db) : Db :=
  mkDb (users d) (partners d) (ambassadors d) (promoCodes d) (referralCodes d)
       (f (partnerTracking d)) (referralTracking d) (ambassadorPayouts d) (partnerPayouts d).

Definition set_referralTracking (f : list ReferralTracking -> list ReferralTracking) (d : Db) : Db :=
  mkDb (users d) (partners d) (ambassadors d) (promoCodes d) (referralCodes d)
       (partnerTracking d) (f (referralTracking d)) (ambassadorPayouts d) (partnerPayouts d).

Definition set_ambassadorPayouts (f : list Payout -> list Payout) (d : Db) : Db :=
  mkDb (users d) (partners d) (ambassadors d) (promoCodes d) (referralCodes d)
       (partnerTracking d) (referralTracking d) (f (ambassadorPayouts d)) (partnerPayouts d).

Definition set_partnerPayouts (f : list Payout -> list Payout) (d : Db) : Db :=
  mkDb (users d) (partners d) (ambassadors d) (promoCodes d) (referralCodes d)
       (partnerTracking d) (referralTracking d) (ambassadorPayouts d) (f (partnerPayouts d)).

(** ** Replies and effects *)

(** The JSON bodies the handlers send. *)
Inductive Body :=
| Error (error : string)
| Message (message : string)
| PayoutRequested (requestId : nat) (amount : Q)
| PayoutPaid (amount : option Q)
| PayoutCancelled
| PromoValid (discount : option Q)
| PromoUsed (discountPercentage discountAmount finalAmount companyRevenue partnerRevenue : Q)
| ReferralUsed (commissionEarned commissionRate : Q) (timesUsed : Z)
| StatusUpdated (code : option string).

(** [res.status(code).json(body)]. *)
Record Reply := Json { http : Z; body : Body }.

(** A document key: generated by [addDoc], or chosen by the caller. *)
Inductive Key :=
| AutoId (n : nat)
| DocId (s : string).

(** What a handler does to the outside world, in the order it does it: the
    calls of [stripe.transfers.create] with their outcome, and the writes to
    the store. *)
Inductive Effect :=
| Transfer (amount : option Z) (destination : string) (outcome : string + string)
| Wrote (collection : string) (key : Key).

Definition Stripe : Type := option Z -> string -> string + string.

(** ** The handler monad

    A handler threads the store and the trace of its effects, and may leave
    early with a reply ([return res.status(..).json(..)]). *)

Record World := mkWorld { db : Db; trace : list Effect }.

Definition H (A : Type) : Type := World -> (Reply + A) * World.

Definition ret {A} (a : A) : H A := fun w => (inr a, w).

Definition bind {A B} (m : H A) (k : A -> H B) : H B :=
  fun w =>
    match m w with
    | (inl r, w') => (inl r, w')
    | (inr a, w') => k a w'
    end.

Notation "x <- m ;; k" := (bind m (fun x => k))
  (at level 100, m at next level, k at level 200, right associativity).
Notation "'exec' m ;; k" := (bind m (fun _ => k))
  (at level 100, m at next level, k at level 200, right associativity).

Definition respond {A} (code : Z) (b : Body) : H A := fun w => (inl (Json code b), w).

(** [if (c) return res.status(code).json(b)]. *)
Definition returnIf (c : bool) (code : Z) (b : Body) : H unit :=
  if c then respond code b else ret tt.

(** A lookup whose absence answers [code]: [if (!snap.exists()) return ...]. *)
Definition orElse {A} (o : option A) (code : Z) (b : Body) : H A :=
  match o with
  | Some a => ret a
  | None => respond code b
  end.

Definition read : H Db := fun w => (inr (db w), w).

(** A write to the store, recorded in the trace. *)
Definition write (collection : string) (k : Key) (f : Db -> Db) : H unit :=
  fun w => (inr tt, mkWorld (f (db w)) (trace w ++ [Wrote collection k])).

(** [await stripe.transfers.create({amount, currency: "usd", destination})]
    inside the handler's [try]: an error raised by the client is caught by
    the handler's [catch], which answers 500 with the error's message. *)
Definition transfers_create (stripe : Stripe) (amount : option Z) (destination : string) : H string :=
  fun w =>
    let w' := mkWorld (db w) (trace w ++ [Transfer amount destination (stripe amount destination)]) in
    match stripe amount destination with
    | inl err => (inl (Json 500 (Error err)), w')
    | inr id => (inr id, w')
    end.

(** Running a handler on a store: its reply, the store it leaves and the
    trace of its effects. *)
Definition run (h : H Reply) (d : Db) : Reply * Db * list Effect :=
  match h (mkWorld d []) with
  | (inl r, w) | (inr r, w) => (r, db w, trace w)
  end.

(** [updateDoc(ref, fields)] on a document of a list collection. *)
Definition updateAt {A} (i : nat) (f : A -> A) (l : list A) : list A := alter f i l.

(** [addDoc(collection, doc)]: the new document goes last; its id is the
    length of the collection before the insertion. *)
Definition addDoc {A} (x : A) (l : list A) : list A := l ++ [x].

(** ** [src/korpo.js] *)

Module Korpo.

(** The fields [updateDoc] sets on an approved payout request. *)
Definition approved (now : Z) (transferId : string) (p : Payout) : Payout :=
  mkPayout (p_referrerId p) (p_connectedAccountId p) (p_amount p) "approved"
           (p_createdAt p) (Some now) (p_cancelledAt p) (Some transferId).


(** [POST /api/requestPayoutForAmbassador] (lines 961-1010). *)
Definition requestPayoutForAmbassador (now : Z) (ambassadorId connectedAccountId : option string)
  : H Reply :=
  ambassadorId <- orElse (required ambassadorId) 400
    (Error "ambassadorId and connectedAccountId are required") ;;
  connectedAccountId <- orElse (required connectedAccountId) 400
    (Error "ambassadorId and connectedAccountId are required") ;;
  d <- read ;;
  ambassador <- orElse (ambassadors d !! ambassadorId) 404 (Error "Ambassador not found") ;;
  exec returnIf (bool_decide (r_connectAccountId ambassador ≠ Some connectedAccountId)) 400
    (Error "Connected account ID mismatch") ;;
  let balance := or0 (r_commissionEarned ambassador) in
  exec returnIf (Qle_bool balance 0) 400 (Error "No referral balance available") ;;
  let newRequest := length (ambassadorPayouts d) in
  exec write "ambassadorPayouts" (AutoId newRequest)
    (set_ambassadorPayouts
       (addDoc (mkPayout ambassadorId connectedAccountId balance
                         "pending" now None None None))) ;;
  respond 200 (PayoutRequested newRequest balance).

(** [POST /api/approvePayoutForAmbassador] (lines 1012-1081). *)
Definition approvePayoutForAmbassador (stripe : Stripe) (now : Z) (requestId : option nat)
  : H Reply :=
  requestId <- orElse requestId 400 (Error "requestId is required") ;;
  d <- read ;;
  request <- orElse (ambassadorPayouts d !! requestId) 404 (Error "Request not found") ;;
  exec returnIf (bool_decide (p_status request ≠ "pending")) 400 (Error "Request already processed") ;;
  ambassador <- orElse (ambassadors d !! p_referrerId request) 404 (Error "Ambassador not found") ;;
  let payoutAmount := (fun c => c * (1 # 10))%Q <$> r_commissionEarned ambassador in
  exec returnIf (le0 payoutAmount) 400 (Error "No balance available for payout") ;;
  let amountInCents := (fun a => Math_round (a * 100)) <$> payoutAmount in
  transferId <- transfers_create stripe amountInCents (p_connectedAccountId request) ;;
  exec write "ambassadorPayouts" (AutoId requestId)
    (set_ambassadorPayouts (updateAt requestId (approved now transferId))) ;;
  respond 200 (PayoutPaid payoutAmount).


(** [POST /api/requestPayoutForPartner] (lines 1121-1170). *)
Definition requestPayoutForPartner (now : Z) (partnerId connectedAccountId : option string)
  : H Reply :=
  partnerId <- orElse (required partnerId) 400
    (Error "partnerId and connectedAccountId are required") ;;
  connectedAccountId <- orElse (required connectedAccountId) 400
    (Error "partnerId and connectedAccountId are required") ;;
  d <- read ;;
  partner <- orElse (partners d !! partnerId) 404 (Error "Partner not found") ;;
  exec returnIf (bool_decide (r_connectAccountId partner ≠ Some connectedAccountId)) 400
    (Error "Connected account ID mismatch") ;;
  let balance := or0 (r_commissionEarned partner) in
  exec returnIf (Qle_bool balance 0) 400 (Error "No referral balance available") ;;
  let newRequest := length (partnerPayouts d) in
  exec write "partnerPayouts" (AutoId newRequest)
    (set_partnerPayouts
       (addDoc (mkPayout partnerId connectedAccountId balance
                         "pending" now None None None))) ;;
  respond 200 (PayoutRequested newRequest balance).

(** [POST /api/approvePayoutForPartner] (lines 1172-1240). *)
Definition approvePayoutForPartner (stripe : Stripe) (now : Z) (requestId : option nat)
  : H Reply :=
  requestId <- orElse requestId 400 (Error "requestId is required") ;;
  d <- read ;;
  request <- orElse (partnerPayouts d !! requestId) 404 (Error "Request not found") ;;
  exec returnIf (bool_decide (p_status request ≠ "pending")) 400 (Error "Request already processed") ;;
  partner <- orElse (partners d !! p_referrerId request) 404 (Error "Partner not found") ;;
  let payoutAmount := (fun c => c * (1 # 10))%Q <$> r_commissionEarned partner in
  exec returnIf (le0 payoutAmount) 400 (Error "No balance available for payout") ;;
  let amountInCents := (fun a => Math_round (a * 100)) <$> payoutAmount in
  transferId <- transfers_create stripe amountInCents (p_connectedAccountId request) ;;
  exec write "partnerPayouts" (AutoId requestId)
    (set_partnerPayouts (updateAt requestId (approved now transferId))) ;;
  respond 200 (PayoutPaid payoutAmount).

(** The usage-limit test of the redemption route (lines 413-420):
    [usageLimit !== null && usageLimit !== undefined && timesUsed >= usageLimit]. *)
Definition usageLimitReached (timesUsed : Z) (usageLimit : option Z) : bool :=
  match usageLimit with
  | Some limit => bool_decide (limit ≤ timesUsed)
  | None => false
  end.

(** [new Date(x)] on a stored bound: [new Date(null)] is the epoch. *)
Definition toDate (x : option Z) : Z := default 0 x.

(** [GET /api/promoCode/validate/:code] (lines 346-368).  The comparison
    [promo.timesUsed >= promo.usageLimit] is written without a test for
    [null]; JavaScript converts [null] to [0] there. *)
Definition promoCode_validate (now : Z) (code : string) : H Reply :=
  d <- read ;;
  promo <- orElse (snd <$> list_find (λ p, c_code p = code) (promoCodes d)) 404
    (Error "Promo not found") ;;
  exec returnIf (bool_decide (now < toDate (c_validFrom promo))
                 || bool_decide (toDate (c_validTo promo) < now)) 400 (Error "Promo expired") ;;
  exec returnIf (bool_decide (default 0 (c_usageLimit promo) ≤ c_timesUsed promo)) 400
    (Error "Usage limit reached") ;;
  respond 200 (PromoValid (c_discount promo)).

(** [POST /api/verifyUser] (lines 231-266). *)
Definition verifyUser (userId promoCode : option string) : H Reply :=
  userId <- orElse (required userId) 400 (Error "userId and promoCode are required") ;;
  promoCode <- orElse (required promoCode) 400 (Error "userId and promoCode are required") ;;
  d <- read ;;
  match list_find (λ t, pt_userId t = userId ∧ pt_promoCode t = promoCode) (partnerTracking d) with
  | Some _ => respond 200 (Message "code used already")
  | None =>
      promo <- orElse (snd <$> list_find (λ p, c_code p = promoCode) (promoCodes d)) 404
        (Error "Promo code not found") ;;
      respond 200 (PromoValid (Some (or0 (c_discount promo))))
  end.

(** The fields the redemption route sets on the partner (lines 476-482). *)
Definition credited (now : Z) (partnerRevenue : Q) (promoData : Code) (r : Referrer) : Referrer :=
  let timesUsed := c_timesUsed promoData + 1 in
  let usageLimit := default 0 (c_usageLimit promoData) in
  let leftPromo := if bool_decide (0 < usageLimit) then Some (usageLimit - timesUsed) else None in
  let totalPromo := if bool_decide (0 < usageLimit) then Some usageLimit else None in
  mkReferrer (r_status r) (r_code r) (r_codeId r) (r_connectAccountId r) (r_commission r)
    (r_commissionRate r) (r_commissionEarned r) (r_availableBalance r)
    (increment partnerRevenue (r_totalRevenue r)) (r_totalDiscountGiven r) (r_totalReferrals r)
    (Some timesUsed) leftPromo totalPromo (Some now) (r_lastPayoutAt r).

(** [timesUsed: increment(1)] on a code. *)
Definition used (c : Code) : Code :=
  mkCode (c_code c) (c_owner c) (c_discount c) (c_validFrom c) (c_validTo c) (c_usageLimit c)
         (c_timesUsed c + 1) (c_status c).

(** [POST /api/promoCode/use/:code] (lines 382-501). *)
Definition promoCode_use (now : Z) (code : string) (userId : option string) (amount : option Q)
  : H Reply :=
  userId <- orElse (required userId) 400 (Error "userId and amount are required") ;;
  amount <- orElse amount 400 (Error "userId and amount are required") ;;
  d <- read ;;
  exec returnIf (bool_decide (userId ∉ users d)) 404 (Error "User not found") ;;
  promoDoc <- orElse (list_find (λ p, c_code p = code) (promoCodes d)) 404
    (Error "Promo code not found") ;;
  let promoId := fst promoDoc in
  let promoData := snd promoDoc in
  exec returnIf (usageLimitReached (c_timesUsed promoData) (c_usageLimit promoData)) 400
    (Error "Usage limit exceeded") ;;
  let discountPercentage := or0 (c_discount promoData) in
  let discountAmount := (amount * discountPercentage / 100)%Q in
  let finalAmount := (amount - discountAmount)%Q in
  let partnerId := required (c_owner promoData) in
  let partnerData := partnerId ≫= (λ id, partners d !! id) in
  let partnerSharePercentage := default 30%Q (partnerData ≫= r_commission) in
  let partnerRevenue := (finalAmount * partnerSharePercentage / 100)%Q in
  let companyRevenue := (finalAmount - partnerRevenue)%Q in
  exec write "partnerPromoCodes" (AutoId promoId) (set_promoCodes (updateAt promoId used)) ;;
  exec write "partnerTracking" (AutoId (length (partnerTracking d)))
    (set_partnerTracking
       (addDoc (mkPartnerTracking userId code promoId partnerId now amount discountPercentage
                  discountAmount finalAmount companyRevenue partnerRevenue
                  partnerSharePercentage))) ;;
  exec match partnerId, partnerData with
       | Some id, Some _ =>
           write "partners" (DocId id)
             (set_partners (alter (credited now partnerRevenue promoData) id))
       | _, _ => ret tt
       end ;;
  respond 200 (PromoUsed discountPercentage discountAmount finalAmount companyRevenue partnerRevenue).




End Korpo.

(** ** Loops

    A [while] loop run for at most [fuel] iterations.  [None] means that the
    loop is still running when the fuel is spent; the body may leave the
    handler with a reply. *)
Fixpoint while {S : Type} (fuel : nat) (cond : S -> bool) (body : S -> Reply + S) (s : S)
  : option (Reply + S) :=
  if cond s then
    match fuel with
    | O => None
    | Datatypes.S fuel' =>
        match body s with
        | inl r => Some (inl r)
        | inr s' => while fuel' cond body s'
        end
    end
  else Some (inr s).

(** ** The later revision ([src/unnamed/part_001], lines 396-2556) *)

Module Server.

(** *** Code generation *)

(** The variables of the generation loops; [draws] counts the calls of
    [Math.random] made so far. *)
Record Gen := mkGen {
  finalCode : string;
  isUnique : bool;
  attempts : Z;
  draws : nat
}.

(** The loop of [POST /api/partner/submitApplication] (lines 526-543).
    [random k] is the value of [Math.floor(Math.random() * 1000)] at the
    [k]-th call. *)
Definition partner_generate_body (random : nat -> Z) (d : Db) (userId : string) (g : Gen)
  : Reply + Gen :=
  let fresh := bool_decide (finalCode g = "") in
  let candidate :=
    if fresh then "PRM" +:+ toUpperCase (slice_last 4 userId) +:+ pretty (random (draws g))
    else finalCode g in
  let draws' := if fresh then Datatypes.S (draws g) else draws g in
  match list_find (λ c, c_code c = candidate) (promoCodes d) with
  | None => inr (mkGen candidate true (attempts g + 1) draws')
  | Some _ => inr (mkGen "" false (attempts g + 1) draws')
  end.

Definition partner_generate (fuel : nat) (random : nat -> Z) (d : Db) (userId : string)
  (promoCode : option string) : option (Reply + Gen) :=
  while fuel (λ g, negb (isUnique g) && bool_decide (attempts g < 5))
    (partner_generate_body random d userId)
    (mkGen (default "" promoCode) false 0 0).

(** The loop of [POST /api/ambassador/submitApplication] (lines 1493-1513). *)
Definition ambassador_generate_body (d : Db) (userId : string) (referralCode : option string)
  (g : Gen) : Reply + Gen :=
  let candidate :=
    if bool_decide (finalCode g = "") then "AMB" +:+ toUpperCase (slice_last 4 userId)
    else finalCode g in
  match list_find (λ c, c_code c = candidate) (referralCodes d) with
  | None => inr (mkGen candidate true (attempts g) (draws g))
  | Some _ =>
      if missing referralCode then inr (mkGen "" false (attempts g) (draws g))
      else inl (Json 400 (Error "Referral code already exists. Please choose another one."))
  end.

Definition ambassador_generate (fuel : nat) (d : Db) (userId : string)
  (referralCode : option string) : option (Reply + Gen) :=
  while fuel (λ g, negb (isUnique g)) (ambassador_generate_body d userId referralCode)
    (mkGen (default "" referralCode) false 0 0).

(** [x ? x / 100 : 0] (lines 551-552). *)
Definition percentToDecimal (x : option Q) : Q :=
  match x with
  | Some q => if Qeq_bool q 0 then 0%Q else (q / 100)%Q
  | None => 0%Q
  end.

(** [POST /api/partner/submitApplication] (lines 495-614); the mirror of the
    application on the user document is a write to [users]. *)
Definition partner_submitApplication (fuel : nat) (random : nat -> Z) (userId : string)
  (promoCode status : option string) (discountRate commissionRate : option Q) (d : Db)
  : option (Reply * Db * list Effect) :=
  if bool_decide (userId ∉ users d) then Some (Json 400 (Error "User does not exist"), d, [])
  else
    match partner_generate fuel random d userId promoCode with
    | None => None
    | Some (inl r) => Some (r, d, [])
    | Some (inr g) =>
        Some (run
          (exec returnIf (negb (isUnique g)) 400
                  (Error "Failed to generate unique promo code. Try again.") ;;
           let promoId := length (promoCodes d) in
           exec write "promoCodes" (AutoId promoId)
             (set_promoCodes
                (addDoc (mkCode (finalCode g) (Some userId) (Some (percentToDecimal discountRate))
                                None None (Some 100) 0 "pending"))) ;;
           exec write "partners" (DocId userId)
             (set_partners
                (insert userId
                   (mkReferrer (default "pending" (required status)) (Some (finalCode g))
                      (Some promoId) None None (Some (percentToDecimal commissionRate)) None
                      (Some 0%Q) (Some 0%Q) None None None None None None None))) ;;
           exec write "users" (DocId userId) id ;;
           respond 201 (StatusUpdated (Some (finalCode g)))) d)
    end.

(** The fields [setDoc(.., {merge: true})] sets on the ambassador profile
    (lines 1529-1546); the other fields of an existing profile are kept. *)
Definition applied (code : string) (codeId : nat) (existing : option Referrer) : Referrer :=
  let keep {A} (f : Referrer -> option A) : option A := existing ≫= f in
  mkReferrer "pending" (Some code) (Some codeId) (keep r_connectAccountId) (keep r_commission)
    (Some 0.1%Q) (keep r_commissionEarned) (Some 0%Q) (keep r_totalRevenue)
    (keep r_totalDiscountGiven) (Some 0) (keep r_timesUsed) (keep r_leftPromo)
    (keep r_totalPromo) (keep r_lastUpdated) (keep r_lastPayoutAt).

(** [POST /api/ambassador/submitApplication] (lines 1464-1574).
    [updateDoc] on a user document that does not exist raises, which the
    handler's [catch] answers with 500. *)
Definition ambassador_submitApplication (fuel : nat)
  (userId firstName lastName email whyJoin referralCode : option string) (d : Db)
  : option (Reply * Db * list Effect) :=
  let incomplete :=
    Error "Missing required fields. Please complete all fields before submitting." in
  if missing userId || missing firstName || missing lastName || missing email || missing whyJoin
  then Some (Json 400 incomplete, d, [])
  else
    let userId := default "" userId in
    let existing := ambassadors d !! userId in
    if bool_decide (r_status <$> existing = Some "pending")
       || bool_decide (r_status <$> existing = Some "approved")
    then Some (Json 400 (Error "You already have a pending or approved ambassador profile."), d, [])
    else
      match ambassador_generate fuel d userId referralCode with
      | None => None
      | Some (inl r) => Some (r, d, [])
      | Some (inr g) =>
          Some (run
            (let referralId := length (referralCodes d) in
             exec write "referralCodes" (AutoId referralId)
               (set_referralCodes
                  (addDoc (mkCode (finalCode g) (Some userId) None None None (Some 100) 0
                                  "pending"))) ;;
             exec write "ambassadors" (DocId userId)
               (set_ambassadors (insert userId (applied (finalCode g) referralId existing))) ;;
             exec returnIf (bool_decide (userId ∉ users d)) 500
               (Error "Something went wrong while submitting your application. Please try again later.") ;;
             exec write "users" (DocId userId) id ;;
             respond 201 (StatusUpdated (Some (finalCode g)))) d)
      end.

(** *** Activation *)

Definition with_status (s : string) (r : Referrer) : Referrer :=
  mkReferrer s (r_code r) (r_codeId r) (r_connectAccountId r) (r_commission r)
    (r_commissionRate r) (r_commissionEarned r) (r_availableBalance r) (r_totalRevenue r)
    (r_totalDiscountGiven r) (r_totalReferrals r) (r_timesUsed r) (r_leftPromo r)
    (r_totalPromo r) (r_lastUpdated r) (r_lastPayoutAt r).

Definition with_code_status (s : string) (c : Code) : Code :=
  mkCode (c_code c) (c_owner c) (c_discount c) (c_validFrom c) (c_validTo c) (c_usageLimit c)
         (c_timesUsed c) s.



(** The update of the referral code on approval of an ambassador
    (lines 1615-1631): the window is renewed when a bound is missing or the
    window has expired. *)
Definition ambassador_activate (now : Z) (referralData : Code) : Code :=
  let expired :=
    match c_validFrom referralData, c_validTo referralData with
    | Some _, Some finalValidTo => bool_decide (finalValidTo < now)
    | _, _ => true
    end in
  let finalValidFrom := if expired then Some now else c_validFrom referralData in
  let finalValidTo := if expired then Some (addDays now 100) else c_validTo referralData in
  mkCode (c_code referralData) (c_owner referralData) (c_discount referralData)
    finalValidFrom finalValidTo (c_usageLimit referralData) (c_timesUsed referralData) "active".

(** [POST /api/ambassador/updateStatus] (lines 1577-1698); of the writes to
    the ambassador profile only the status is kept, and the mirror on the
    user document is a write to [users]. *)
Definition ambassador_updateStatus (now : Z) (userId newStatus : option string) : H Reply :=
  userId <- orElse (required userId) 400 (Error "Missing user ID or status") ;;
  newStatus <- orElse (required newStatus) 400 (Error "Missing user ID or status") ;;
  d <- read ;;
  ambassadorData <- orElse (ambassadors d !! userId) 404 (Error "Ambassador profile not found.") ;;
  let referralDoc := list_find (λ c, c_owner c = Some userId) (referralCodes d) in
  exec match referralDoc with
       | Some (referralId, referralData) =>
           if bool_decide (newStatus = "approved") then
             write "referralCodes" (AutoId referralId)
               (set_referralCodes (updateAt referralId (ambassador_activate now)))
           else if bool_decide (newStatus = "declined") then
             write "referralCodes" (AutoId referralId)
               (set_referralCodes (updateAt referralId (with_code_status "inactive")))
           else ret tt
       | None => ret tt
       end ;;
  exec write "ambassadors" (DocId userId) (set_ambassadors (alter (with_status newStatus) userId)) ;;
  exec returnIf (bool_decide (userId ∉ users d)) 404 (Error "User not found.") ;;
  exec write "users" (DocId userId) id ;;
  respond 200 (StatusUpdated (c_code ∘ snd <$> referralDoc)).

(** *** Redemption *)

(** The fields the promo redemption sets on the partner (lines 1185-1193). *)
Definition credited (now : Z) (partnerRevenue discountAmount : Q) (promoData : Code)
  (r : Referrer) : Referrer :=
  let timesUsed := c_timesUsed promoData + 1 in
  let usageLimit := default 0 (c_usageLimit promoData) in
  let leftPromo := if bool_decide (0 < usageLimit) then Some (usageLimit - timesUsed) else None in
  let totalPromo := if bool_decide (0 < usageLimit) then Some usageLimit else None in
  mkReferrer (r_status r) (r_code r) (r_codeId r) (r_connectAccountId r) (r_commission r)
    (r_commissionRate r) (r_commissionEarned r)
    (increment partnerRevenue (r_availableBalance r))
    (increment partnerRevenue (r_totalRevenue r))
    (increment discountAmount (r_totalDiscountGiven r)) (r_totalReferrals r)
    (Some timesUsed) leftPromo totalPromo (Some now) (r_lastPayoutAt r).

(** [POST /api/promoCode/use/:code] (lines 1091-1212). *)
Definition promoCode_use (now : Z) (code : string) (userId : option string) (amount : option Q)
  : H Reply :=
  userId <- orElse (required userId) 400 (Error "userId and amount are required") ;;
  amount <- orElse amount 400 (Error "userId and amount are required") ;;
  d <- read ;;
  exec returnIf (bool_decide (userId ∉ users d)) 404 (Error "User not found") ;;
  promoDoc <- orElse (list_find (λ p, c_code p = code) (promoCodes d)) 404
    (Error "Promo code not found") ;;
  let promoId := fst promoDoc in
  let promoData := snd promoDoc in
  exec returnIf (Korpo.usageLimitReached (c_timesUsed promoData) (c_usageLimit promoData)) 400
    (Error "Usage limit exceeded") ;;
  let discountPercentage := or0 (c_discount promoData) in
  let discountAmount := (amount * discountPercentage)%Q in
  let finalAmount := (amount - discountAmount)%Q in
  let partnerId := required (c_owner promoData) in
  let partnerData := partnerId ≫= (λ id, partners d !! id) in
  let partnerSharePercentage := default 30%Q (partnerData ≫= r_commissionRate) in
  let partnerRevenue := (finalAmount * partnerSharePercentage)%Q in
  let companyRevenue := (finalAmount - partnerRevenue)%Q in
  exec write "promoCodes" (AutoId promoId) (set_promoCodes (updateAt promoId Korpo.used)) ;;
  exec write "partnerTracking" (AutoId (length (partnerTracking d)))
    (set_partnerTracking
       (addDoc (mkPartnerTracking userId code promoId partnerId now amount discountPercentage
                  discountAmount finalAmount companyRevenue partnerRevenue
                  partnerSharePercentage))) ;;
  exec match partnerId, partnerData with
       | Some id, Some _ =>
           write "partners" (DocId id)
             (set_partners (alter (credited now partnerRevenue discountAmount promoData) id))
       | _, _ => ret tt
       end ;;
  respond 200 (PromoUsed discountPercentage discountAmount finalAmount companyRevenue partnerRevenue).

(** [amount ? .. : ..]: [undefined] and zero are falsy. *)
Definition truthy (amount : option Q) : bool :=
  match amount with
  | Some a => negb (Qeq_bool a 0)
  | None => false
  end.

(** The fields the referral redemption sets on the ambassador
    (lines 1798-1806). *)
Definition rewarded (now : Z) (amount : option Q) (commissionEarned : Q) (r : Referrer)
  : Referrer :=
  mkReferrer (r_status r) (r_code r) (r_codeId r) (r_connectAccountId r) (r_commission r)
    (r_commissionRate r)
    (if truthy amount then increment commissionEarned (r_commissionEarned r)
     else r_commissionEarned r)
    (increment commissionEarned (r_availableBalance r))
    (increment commissionEarned (r_totalRevenue r))
    (r_totalDiscountGiven r) (increment1 (r_totalReferrals r)) (r_timesUsed r) (r_leftPromo r)
    (r_totalPromo r) (Some now) (r_lastPayoutAt r).

(** [POST /api/referralCode/use/:code] (lines 1701-1823).  [updateDoc] on
    an ambassador document that does not exist raises after the counter and
    the tracking entry were written. *)
Definition referralCode_use (now : Z) (code : string) (userId : option string)
  (amount : option Q) : H Reply :=
  userId <- orElse (required userId) 400 (Error "userId is required") ;;
  d <- read ;;
  exec returnIf (bool_decide (userId ∉ users d)) 404 (Error "User not found") ;;
  referralDoc <- orElse (list_find (λ c, c_code c = code) (referralCodes d)) 404
    (Error "Referral code not found") ;;
  let referralId := fst referralDoc in
  let referralData := snd referralDoc in
  exec returnIf (bool_decide (c_status referralData ≠ "active")) 400
    (Error "Referral code is not active") ;;
  exec returnIf (match c_validFrom referralData with
                 | Some validFrom => bool_decide (now < validFrom)
                 | None => false
                 end) 400 (Error "Referral code is not valid yet") ;;
  exec returnIf (match c_validTo referralData with
                 | Some validTo => bool_decide (validTo < now)
                 | None => false
                 end) 400 (Error "Referral code has expired") ;;
  let timesUsed := c_timesUsed referralData in
  exec returnIf (Korpo.usageLimitReached timesUsed (c_usageLimit referralData)) 400
    (Error "Referral code usage limit reached") ;;
  let ambassadorId := required (c_owner referralData) in
  exec returnIf (bool_decide (is_Some (list_find
                   (λ t, rt_userId t = userId ∧ rt_referralCode t = code)
                   (referralTracking d)))) 400
    (Error "User already used this referral code") ;;
  let ambassadorData := ambassadorId ≫= (λ id, ambassadors d !! id) in
  let commissionRate := default 0.1%Q (ambassadorData ≫= r_commissionRate) in
  let commissionEarned :=
    if truthy amount then (or0 amount * commissionRate)%Q else 0%Q in
  exec write "referralCodes" (AutoId referralId)
    (set_referralCodes (updateAt referralId Korpo.used)) ;;
  exec write "referralTracking" (AutoId (length (referralTracking d)))
    (set_referralTracking
       (addDoc (mkReferralTracking userId ambassadorId code referralId now amount
                  commissionRate commissionEarned))) ;;
  exec match ambassadorId with
       | Some id =>
           _ <- orElse ambassadorData 500 (Error "No document to update") ;;
           write "ambassadors" (DocId id)
             (set_ambassadors (alter (rewarded now amount commissionEarned) id))
       | None => ret tt
       end ;;
  respond 200 (ReferralUsed commissionEarned commissionRate (timesUsed + 1)).

(** *** Payouts *)

(** [availableBalance: 0, lastPayoutAt: serverTimestamp()]. *)
Definition settled (now : Z) (r : Referrer) : Referrer :=
  mkReferrer (r_status r) (r_code r) (r_codeId r) (r_connectAccountId r) (r_commission r)
    (r_commissionRate r) (r_commissionEarned r) (Some 0%Q) (r_totalRevenue r)
    (r_totalDiscountGiven r) (r_totalReferrals r) (r_timesUsed r) (r_leftPromo r)
    (r_totalPromo r) (r_lastUpdated r) (Some now).

(** [POST /api/ambassador/requestPayout] (lines 2225-2274). *)
Definition ambassador_requestPayout (now : Z) (ambassadorId connectedAccountId : option string)
  : H Reply :=
  ambassadorId <- orElse (required ambassadorId) 400
    (Error "ambassadorId and connectedAccountId are required") ;;
  connectedAccountId <- orElse (required connectedAccountId) 400
    (Error "ambassadorId and connectedAccountId are required") ;;
  d <- read ;;
  ambassador <- orElse (ambassadors d !! ambassadorId) 404 (Error "Ambassador not found") ;;
  exec returnIf (bool_decide (r_connectAccountId ambassador ≠ Some connectedAccountId)) 400
    (Error "Connected account ID mismatch") ;;
  let balance := or0 (r_commissionEarned ambassador) in
  exec returnIf (Qle_bool balance 0) 400 (Error "No referral balance available") ;;
  let newRequest := length (ambassadorPayouts d) in
  exec write "ambassadorPayouts" (AutoId newRequest)
    (set_ambassadorPayouts
       (addDoc (mkPayout ambassadorId connectedAccountId balance "pending" now None None None))) ;;
  respond 200 (PayoutRequested newRequest balance).

(** [POST /api/ambassador/approvePayout] (lines 2276-2350).  The balance is
    read without a default, so on a profile without [availableBalance] the
    final [payoutAmount.toFixed(2)] raises after both writes. *)
Definition ambassador_approvePayout (stripe : Stripe) (now : Z) (requestId : option nat)
  : H Reply :=
  requestId <- orElse requestId 400 (Error "requestId is required") ;;
  d <- read ;;
  request <- orElse (ambassadorPayouts d !! requestId) 404 (Error "Request not found") ;;
  exec returnIf (bool_decide (p_status request ≠ "pending")) 400 (Error "Request already processed") ;;
  ambassador <- orElse (ambassadors d !! p_referrerId request) 404 (Error "Ambassador not found") ;;
  let payoutAmount := r_availableBalance ambassador in
  exec returnIf (le0 payoutAmount) 400 (Error "No balance available for payout") ;;
  let amountInCents := (fun a => Math_round (a * 100)) <$> payoutAmount in
  transferId <- transfers_create stripe amountInCents (p_connectedAccountId request) ;;
  exec write "ambassadorPayouts" (AutoId requestId)
    (set_ambassadorPayouts (updateAt requestId (Korpo.approved now transferId))) ;;
  exec write "ambassadors" (DocId (p_referrerId request))
    (set_ambassadors (alter (settled now) (p_referrerId request))) ;;
  _ <- orElse payoutAmount 500 (Error "Cannot read properties of undefined (reading 'toFixed')") ;;
  respond 200 (PayoutPaid payoutAmount).

(** [POST /api/partner/requestPayout] (lines 2390-2439). *)
Definition partner_requestPayout (now : Z) (partnerId connectedAccountId : option string)
  : H Reply :=
  partnerId <- orElse (required partnerId) 400
    (Error "partnerId and connectedAccountId are required") ;;
  connectedAccountId <- orElse (required connectedAccountId) 400
    (Error "partnerId and connectedAccountId are required") ;;
  d <- read ;;
  partner <- orElse (partners d !! partnerId) 404 (Error "Partner not found") ;;
  exec returnIf (bool_decide (r_connectAccountId partner ≠ Some connectedAccountId)) 400
    (Error "Connected account ID mismatch") ;;
  let balance := or0 (r_totalRevenue partner) in
  exec returnIf (Qle_bool balance 0) 400 (Error "No referral balance available") ;;
  let newRequest := length (partnerPayouts d) in
  exec write "partnerPayouts" (AutoId newRequest)
    (set_partnerPayouts
       (addDoc (mkPayout partnerId connectedAccountId balance "pending" now None None None))) ;;
  respond 200 (PayoutRequested newRequest balance).

(** The fields set on an approved partner payout (lines 2489-2494). *)
Definition approved (now : Z) (transferId : string) (payoutAmount : Q) (p : Payout) : Payout :=
  mkPayout (p_referrerId p) (p_connectedAccountId p) payoutAmount "approved"
           (p_createdAt p) (Some now) (p_cancelledAt p) (Some transferId).

(** [POST /api/partner/approvePayout] (lines 2441-2516). *)
Definition partner_approvePayout (stripe : Stripe) (now : Z) (requestId : option nat)
  : H Reply :=
  requestId <- orElse requestId 400 (Error "requestId is required") ;;
  d <- read ;;
  request <- orElse (partnerPayouts d !! requestId) 404 (Error "Request not found") ;;
  exec returnIf (bool_decide (p_status request ≠ "pending")) 400 (Error "Request already processed") ;;
  partner <- orElse (partners d !! p_referrerId request) 404 (Error "Partner not found") ;;
  let payoutAmount := or0 (r_availableBalance partner) in
  exec returnIf (Qle_bool payoutAmount 0) 400 (Error "No balance available for payout") ;;
  let amountInCents := Math_round (payoutAmount * 100) in
  transferId <- transfers_create stripe (Some amountInCents) (p_connectedAccountId request) ;;
  exec write "partnerPayouts" (AutoId requestId)
    (set_partnerPayouts (updateAt requestId (approved now transferId payoutAmount))) ;;
  exec write "partners" (DocId (p_referrerId request))
    (set_partners (alter (settled now) (p_referrerId request))) ;;
  respond 200 (PayoutPaid (Some payoutAmount)).



End Server.

(** ** [src/helpers.js] *)

(** [s.charAt(i)]: the empty string out of range. *)
Definition charAt (s : string) (i : nat) : string :=
  match String.get i s with
  | Some c => String c ""
  | None => ""
  end.

Definition chars : string := "ABCDEFGHIJKLMNOPQRSTUVWXYZ0123456789".

(** The [for] loop of [generateRandomCode]: [i] is the loop counter,
    [remaining] is [length - i], and [random i] is the value of
    [Math.floor(Math.random() * chars.length)] at iteration [i]. *)
Fixpoint generateRandomCode_loop (random : nat → nat) (i remaining : nat) (code : string)
  : string :=
  match remaining with
  | O => code
  | S remaining' =>
      generateRandomCode_loop random (S i) remaining' (code +:+ charAt chars (random i))
  end.

(** [generateRandomCode(length = 6)]. *)
Definition generateRandomCode (random : nat → nat) (length : option nat) : string :=
  generateRandomCode_loop random 0 (default 6%nat length) "AMB".

(** ** The payout approvals under study *)

Definition approvals : list (Stripe -> Z -> option nat -> H Reply) :=
  [ Korpo.approvePayoutForAmbassador; Korpo.approvePayoutForPartner;
    Server.ambassador_approvePayout; Server.partner_approvePayout ].


(** A referrer asks for a payout and the request just created is approved:
    the world after the two calls. *)
Definition payoutCycle (request : Z -> option string -> option string -> H Reply)
  (approve : Stripe -> Z -> option nat -> H Reply) (stripe : Stripe) (now : Z)
  (referrerId connectedAccountId : string) (w : World) : World :=
  match request now (Some referrerId) (Some connectedAccountId) w with
  | (inl (Json _ (PayoutRequested requestId _)), w') =>
      snd (approve stripe now (Some requestId) w')
  | (_, w') => w'
  end.

(** The transfers of a trace that went through: amount and destination. *)
Definition transfers (tr : list Effect) : list (option Z * string) :=
  omap (λ e, match e with
             | Transfer amount destination (inr _) => Some (amount, destination)
             | _ => None
             end) tr.

(** One redemption attempt on a code, and a sequence of attempts made one
    after the other: the store they leave and how many of them were
    answered with success. *)
Record Attempt := mkAttempt {
  at_now : Z;
  at_userId : option string;
  at_amount : option Q
}.

Fixpoint redeemAll (use : Z -> string -> option string -> option Q -> H Reply) (code : string)
  (attempts : list Attempt) (d : Db) : Db * nat :=
  match attempts with
  | [] => (d, O)
  | a :: rest =>
      let '(reply, d', _) := run (use (at_now a) code (at_userId a) (at_amount a)) d in
      let '(d'', n) := redeemAll use code rest d' in
      (d'', if bool_decide (http reply = 200) then S n else n)
  end.



(** ** A store for the examples

    One ambassador and one partner, each with 150.456 earned and available,
    a pending payout request of each, an active promo code and an active
    referral code. *)

Definition amb1 : Referrer :=
  mkReferrer "approved" (Some "AMB0001") (Some 0%nat) (Some "acct_amb") None (Some 0.1%Q)
    (Some 150.456%Q) (Some 150.456%Q) (Some 150.456%Q) None None None None None None None.

Definition par1 : Referrer :=
  mkReferrer "approved" (Some "PROMO1") (Some 0%nat) (Some "acct_par") (Some 30%Q) (Some 0.3%Q)
    (Some 150.456%Q) (Some 150.456%Q) (Some 150.456%Q) None None None None None None None.

Definition shop : Db :=
  mkDb {[ "u1"; "u2"; "amb1"; "par1" ]}
       {[ "par1" := par1 ]}
       {[ "amb1" := amb1 ]}
       [ mkCode "PROMO1" (Some "par1") (Some 20%Q) (Some 1000) (Some 9000) (Some 1) 0 "active" ]
       [ mkCode "AMB0001" (Some "amb1") None (Some 1000) (Some 9000) (Some 1) 0 "active" ]
       [] []
       [ mkPayout "amb1" "acct_amb" 150.456%Q "pending" 2000 None None None ]
       [ mkPayout "par1" "acct_par" 150.456%Q "pending" 2000 None None None ].

(** The same store with no usage limit on the promo code, and the same
    store after user [u1] has redeemed the promo code once. *)
Definition unlimited : Db :=
  set_promoCodes
    (λ _, [ mkCode "PROMO1" (Some "par1") (Some 20%Q) (Some 1000) (Some 9000) None 0 "active" ])
    shop.

Definition redeemed : Db :=
  set_partnerTracking
    (λ _, [ mkPartnerTracking "u1" "PROMO1" 0 (Some "par1") 4000 100 20 20 80 56 24 30 ])
    unlimited.

(** The store after the ambassador has asked for a second payout, and that
    store after the first request was approved. *)
Definition asked_twice : Db :=
  (run (Server.ambassador_requestPayout 3000 (Some "amb1") (Some "acct_amb")) shop).1.2.

Definition paid_once : Db :=
  set_ambassadors (alter (Server.settled 5000) "amb1")
    (set_ambassadorPayouts (updateAt 0 (Korpo.approved 5000 "tr_1")) asked_twice).

(** The store with a promo code that was approved without an end date. *)
Definition open_ended : Db :=
  set_promoCodes
    (λ _, [ mkCode "PROMO1" (Some "par1") (Some 20%Q) (Some 1000) None (Some 1) 0 "active" ])
    shop.

(** The store with a promo code of the later revision (a discount of 0.2 as
    a fraction) that has no partner. *)
Definition orphan : Db :=
  set_promoCodes
    (λ _, [ mkCode "PROMO1" None (Some 0.2%Q) (Some 1000) (Some 9000) None 0 "active" ])
    shop.

(** The store with a promo code of the later revision that belongs to the
    partner, whose [commissionRate] is 0.3. *)
Definition fractional : Db :=
  set_promoCodes
    (λ _, [ mkCode "PROMO1" (Some "par1") (Some 0.2%Q) (Some 1000) (Some 9000) None 0 "active" ])
    shop.

(** A Stripe client that accepts every transfer, and one that refuses
    every transfer. *)
Definition accepting : Stripe := λ _ _, inr "tr_1".
Definition refusing : Stripe := λ _ _, inl "insufficient funds".

(** * Properties *)

Ltac monad :=
  unfold run, bind, orElse, returnIf, read, write, transfers_create, respond, ret in *.

Ltac split_in H :=
  repeat (cbn beta iota zeta in H;
          match type of H with
          | context [match ?x with _ => _ end] =>
              lazymatch x with
              | context [match _ with _ => _ end] => fail
              | _ => destruct x eqn:?
              end
          end);
  cbn beta iota zeta in H; simplify_eq.

Ltac store :=
  cbn [db trace users partners ambassadors promoCodes referralCodes partnerTracking
       referralTracking ambassadorPayouts partnerPayouts set_partners set_ambassadors
       set_promoCodes set_referralCodes set_partnerTracking set_referralTracking
       set_ambassadorPayouts set_partnerPayouts] in *.

Ltac each_approval H :=
  unfold approvals in H;
  repeat (apply elem_of_cons in H as [-> | H]);
  [ unfold Korpo.approvePayoutForAmbassador in *
  | unfold Korpo.approvePayoutForPartner in *
  | unfold Server.ambassador_approvePayout in *
  | unfold Server.partner_approvePayout in *
  | by apply elem_of_nil in H ].

(** ** Payout approval *)

(** C2.  When the transfer call of a payout approval raises, the store is
    left exactly as it was (the request stays [pending], no transfer id is
    recorded, the referrer keeps every field) and the handler answers 500;
    and in every run, a write to the store comes after a transfer that
    succeeded, which is the first effect of the run. *)
Theorem transfer_failure_changes_nothing approve stripe now requestId d reply d' tr :
  approve ∈ approvals →
  run (approve stripe now requestId) d = (reply, d', tr) →
  (∀ amount destination err,
      Transfer amount destination (inl err) ∈ tr →
      d' = d ∧ reply = Json 500 (Error err) ∧ tr = [Transfer amount destination (inl err)])
  ∧ (∀ i collection key,
      tr !! i = Some (Wrote collection key) →
      (0 < i)%nat ∧ ∃ amount destination id, tr !! 0%nat = Some (Transfer amount destination (inr id))).
Proof.
  intros Hin Hrun.
  each_approval Hin; monad; simpl in Hrun; split_in Hrun; store.
  all: split.
  all: try (intros amount destination err Hel;
      repeat (apply elem_of_cons in Hel as [Hel | Hel]; simplify_eq);
      try (by apply elem_of_nil in Hel); try congruence; eauto; fail).
  all: try (intros [|[|[|i]]] collection key Hi; simplify_eq; (split; [lia | eauto]); fail).
Qed.

(** C5.  Once an approval of a request has answered with success, a second
    approval of the same request id answers 400 "Request already
    processed", calls no transfer and leaves the store as it is. *)
Theorem approve_twice approve stripe now requestId d b d' tr stripe2 now2 :
  approve ∈ approvals →
  run (approve stripe now requestId) d = (Json 200 b, d', tr) →
  run (approve stripe2 now2 requestId) d'
  = (Json 400 (Error "Request already processed"), d', []).
Proof.
  intros Hin Hrun.
  each_approval Hin; monad; simpl in Hrun; split_in Hrun.
  all: store; unfold updateAt; rewrite list_lookup_alter.
  all: match goal with H : _ !! _ = Some _ |- _ => rewrite H end.
  all: rewrite decide_True by done.
  all: cbn [fmap option_fmap option_map Korpo.approved Server.approved p_status].
  all: by rewrite bool_decide_eq_true_2.
Qed.

(** ** Payout approval in [korpo.js] *)

Lemma positive_not_le0 (c : Q) : (0 < c)%Q → Qle_bool c 0 = false.
Proof.
  intros Hc. destruct (Qle_bool c 0) eqn:E; [|done].
  apply Qle_bool_iff in E. lra.
Qed.

Lemma tenth_not_le0 (c : Q) : (0 < c)%Q → Qle_bool (c * 0.1) 0 = false.
Proof. intros Hc. apply positive_not_le0. lra. Qed.

Lemma required_Some (s : string) : s ≠ "" → required (Some s) = Some s.
Proof. intros Hs. unfold required, missing. by rewrite bool_decide_eq_false_2. Qed.

Lemma addDoc_lookup_new {A} (x : A) (l : list A) : addDoc x l !! length l = Some x.
Proof. unfold addDoc. apply list_lookup_middle. done. Qed.

Lemma addDoc_alter_new {A} (f : A → A) (x : A) (l : list A) :
  alter f (length l) (addDoc x l) = addDoc (f x) l.
Proof.
  unfold addDoc. rewrite alter_app_r_alt by lia.
  by rewrite Nat.sub_diag.
Qed.

Ltac run_cycle Ha Hconn Hc Hstripe :=
  monad; rewrite !required_Some by done; cbn beta iota zeta;
  rewrite Ha; cbn beta iota zeta;
  rewrite Hconn, bool_decide_eq_false_2 by (intros ?; done);
  cbn beta iota zeta; rewrite Hc; unfold or0, default; cbn [from_option Datatypes.id];
  rewrite positive_not_le0 by done;
  store; cbn beta iota zeta; rewrite addDoc_lookup_new; cbn beta iota zeta;
  cbn [p_status p_referrerId p_connectedAccountId];
  rewrite bool_decide_eq_false_2 by (intros ?; done); cbn beta iota zeta;
  rewrite Ha; cbn beta iota zeta; rewrite Hc;
  cbn [fmap option_fmap option_map le0]; rewrite tenth_not_le0 by done;
  cbn beta iota zeta; store; rewrite Hstripe; cbn beta iota zeta; cbn [snd];
  store; unfold updateAt; f_equal;
  [ unfold set_ambassadorPayouts, set_partnerPayouts; store; f_equal;
    by rewrite addDoc_alter_new
  | by rewrite <- !app_assoc ].

Section KorpoCycle.
Variables (stripe : Stripe) (now : Z) (referrerId acct tid : string) (a : Referrer) (c : Q).
Hypothesis known : referrerId ≠ "".
Hypothesis linked : acct ≠ "".
Hypothesis account : r_connectAccountId a = Some acct.
Hypothesis earned : r_commissionEarned a = Some c.
Hypothesis positive : (0 < c)%Q.
Hypothesis accepted : stripe (Some (Math_round (c * 0.1 * 100))) acct = inr tid.

Let paid := mkPayout referrerId acct c "approved" now (Some now) None (Some tid).
Let sent := Transfer (Some (Math_round (c * 0.1 * 100))) acct (inr tid).

Lemma korpo_ambassador_cycle w :
  ambassadors (db w) !! referrerId = Some a →
  payoutCycle Korpo.requestPayoutForAmbassador Korpo.approvePayoutForAmbassador
    stripe now referrerId acct w
  = mkWorld (set_ambassadorPayouts (addDoc paid) (db w))
      (trace w ++ [Wrote "ambassadorPayouts" (AutoId (length (ambassadorPayouts (db w))));
                   sent;
                   Wrote "ambassadorPayouts" (AutoId (length (ambassadorPayouts (db w))))]).
Proof.
  intros Ha.
  unfold payoutCycle, Korpo.requestPayoutForAmbassador, Korpo.approvePayoutForAmbassador.
  run_cycle Ha account earned accepted.
Qed.

Lemma korpo_partner_cycle w :
  partners (db w) !! referrerId = Some a →
  payoutCycle Korpo.requestPayoutForPartner Korpo.approvePayoutForPartner
    stripe now referrerId acct w
  = mkWorld (set_partnerPayouts (addDoc paid) (db w))
      (trace w ++ [Wrote "partnerPayouts" (AutoId (length (partnerPayouts (db w))));
                   sent;
                   Wrote "partnerPayouts" (AutoId (length (partnerPayouts (db w))))]).
Proof.
  intros Ha.
  unfold payoutCycle, Korpo.requestPayoutForPartner, Korpo.approvePayoutForPartner.
  run_cycle Ha account earned accepted.
Qed.

Lemma transfers_cycle tr c1 k1 c2 k2 :
  transfers (tr ++ [Wrote c1 k1; sent; Wrote c2 k2])
  = transfers tr ++ [(Some (Math_round (c * 0.1 * 100)), acct)].
Proof. unfold transfers. by rewrite omap_app. Qed.

End KorpoCycle.

(** C10.  In [korpo.js] a successful approval rewrites one payout request
    (its status, [approvedAt] and [transferId]) and nothing else in the
    store; so a referrer whose [commissionEarned] is a positive [c] can run
    the request-then-approve cycle any number [n] of times: each cycle
    transfers [round (c * 0.10 * 100)] minor units, and after [n] cycles the
    store is the initial one with [n] approved requests added, every
    ambassador and partner document being as before. *)
Theorem korpo_approval_never_settles stripe now referrerId acct tid a c d n :
  referrerId ≠ "" → acct ≠ "" →
  r_connectAccountId a = Some acct →
  r_commissionEarned a = Some c →
  (0 < c)%Q →
  stripe (Some (Math_round (c * 0.1 * 100))) acct = inr tid →
  let paid := mkPayout referrerId acct c "approved" now (Some now) None (Some tid) in
  let amount := Some (Math_round (c * 0.1 * 100)) in
  (∀ stripe' now' requestId d0 b d' tr,
      run (Korpo.approvePayoutForAmbassador stripe' now' requestId) d0 = (Json 200 b, d', tr) →
      ∃ rid id, requestId = Some rid
                ∧ d' = set_ambassadorPayouts (updateAt rid (Korpo.approved now' id)) d0)
  ∧ (∀ stripe' now' requestId d0 b d' tr,
      run (Korpo.approvePayoutForPartner stripe' now' requestId) d0 = (Json 200 b, d', tr) →
      ∃ rid id, requestId = Some rid
                ∧ d' = set_partnerPayouts (updateAt rid (Korpo.approved now' id)) d0)
  ∧ (ambassadors d !! referrerId = Some a →
     let w := Nat.iter n (payoutCycle Korpo.requestPayoutForAmbassador
                            Korpo.approvePayoutForAmbassador stripe now referrerId acct)
                (mkWorld d []) in
     db w = set_ambassadorPayouts (λ l, l ++ replicate n paid) d
     ∧ ambassadors (db w) = ambassadors d ∧ partners (db w) = partners d
     ∧ transfers (trace w) = replicate n (amount, acct))
  ∧ (partners d !! referrerId = Some a →
     let w := Nat.iter n (payoutCycle Korpo.requestPayoutForPartner
                            Korpo.approvePayoutForPartner stripe now referrerId acct)
                (mkWorld d []) in
     db w = set_partnerPayouts (λ l, l ++ replicate n paid) d
     ∧ ambassadors (db w) = ambassadors d ∧ partners (db w) = partners d
     ∧ transfers (trace w) = replicate n (amount, acct)).
Proof.
  intros Hid Hacct Hconn Hc Hpos Hstripe paid amount.
  split; [|split; [|split]].
  - intros stripe' now' requestId d0 b d' tr Hrun.
    unfold Korpo.approvePayoutForAmbassador in Hrun. monad. simpl in Hrun.
    split_in Hrun. store. eauto.
  - intros stripe' now' requestId d0 b d' tr Hrun.
    unfold Korpo.approvePayoutForPartner in Hrun. monad. simpl in Hrun.
    split_in Hrun. store. eauto.
  - intros Ha w.
    assert (db w = set_ambassadorPayouts (λ l, l ++ replicate n paid) d
            ∧ transfers (trace w) = replicate n (amount, acct)) as [Hdb Htr].
    { subst w. induction n as [|n [IHdb IHtr]]; simpl.
      - split; [|done]. destruct d; unfold set_ambassadorPayouts; simpl.
        by rewrite app_nil_r.
      - rewrite (korpo_ambassador_cycle stripe now referrerId acct tid a c)
          by (rewrite ?IHdb; done).
        cbn [db trace]. rewrite transfers_cycle, IHtr, IHdb. split.
        + unfold set_ambassadorPayouts, addDoc; store. f_equal.
          rewrite <- app_assoc. f_equal. symmetry. apply replicate_S_end.
        + symmetry. apply replicate_S_end. }
    rewrite Hdb. done.
  - intros Ha w.
    assert (db w = set_partnerPayouts (λ l, l ++ replicate n paid) d
            ∧ transfers (trace w) = replicate n (amount, acct)) as [Hdb Htr].
    { subst w. induction n as [|n [IHdb IHtr]]; simpl.
      - split; [|done]. destruct d; unfold set_partnerPayouts; simpl.
        by rewrite app_nil_r.
      - rewrite (korpo_partner_cycle stripe now referrerId acct tid a c)
          by (rewrite ?IHdb; done).
        cbn [db trace]. rewrite transfers_cycle, IHtr, IHdb. split.
        + unfold set_partnerPayouts, addDoc; store. f_equal.
          rewrite <- app_assoc. f_equal. symmetry. apply replicate_S_end.
        + symmetry. apply replicate_S_end. }
    rewrite Hdb. done.
Qed.

(** ** The amount of an approved payout *)

Ltac go := cbn beta iota zeta; store.

(** C1, as the code has it.  In the later revision, the approval of a
    pending request whose referrer has a positive available balance [b]
    calls the transfer with exactly [round (b * 100)] minor units, [b] being
    the balance read at approval time and not the amount kept on the
    request; when the transfer succeeds the request is marked approved and
    the referrer's [availableBalance] is set to [0].  In [korpo.js] the
    approval of such a request calls the transfer with
    [round (commissionEarned * 0.10 * 100)] minor units. *)
Theorem approval_pays_current_balance stripe now rid d request a b :
  p_status request = "pending" →
  (0 < b)%Q →
  let destination := p_connectedAccountId request in
  let referrer := p_referrerId request in
  (ambassadorPayouts d !! rid = Some request →
   ambassadors d !! referrer = Some a →
   r_availableBalance a = Some b →
   let cents := Some (Math_round (b * 100)) in
   match stripe cents destination with
   | inl err =>
       run (Server.ambassador_approvePayout stripe now (Some rid)) d
       = (Json 500 (Error err), d, [Transfer cents destination (inl err)])
   | inr id =>
       run (Server.ambassador_approvePayout stripe now (Some rid)) d
       = (Json 200 (PayoutPaid (Some b)),
          set_ambassadors (alter (Server.settled now) referrer)
            (set_ambassadorPayouts (updateAt rid (Korpo.approved now id)) d),
          [Transfer cents destination (inr id);
           Wrote "ambassadorPayouts" (AutoId rid); Wrote "ambassadors" (DocId referrer)])
       ∧ r_availableBalance (Server.settled now a) = Some 0%Q
   end)
  ∧ (partnerPayouts d !! rid = Some request →
     partners d !! referrer = Some a →
     r_availableBalance a = Some b →
     let cents := Some (Math_round (b * 100)) in
     match stripe cents destination with
     | inl err =>
         run (Server.partner_approvePayout stripe now (Some rid)) d
         = (Json 500 (Error err), d, [Transfer cents destination (inl err)])
     | inr id =>
         run (Server.partner_approvePayout stripe now (Some rid)) d
         = (Json 200 (PayoutPaid (Some b)),
            set_partners (alter (Server.settled now) referrer)
              (set_partnerPayouts (updateAt rid (Server.approved now id b)) d),
            [Transfer cents destination (inr id);
             Wrote "partnerPayouts" (AutoId rid); Wrote "partners" (DocId referrer)])
         ∧ r_availableBalance (Server.settled now a) = Some 0%Q
     end)
  ∧ (ambassadorPayouts d !! rid = Some request →
     ambassadors d !! referrer = Some a →
     r_commissionEarned a = Some b →
     ∃ rest,
       snd (run (Korpo.approvePayoutForAmbassador stripe now (Some rid)) d)
       = Transfer (Some (Math_round (b * 0.1 * 100))) destination
           (stripe (Some (Math_round (b * 0.1 * 100))) destination) :: rest).
Proof.
  intros Hpending Hpos destination referrer.
  split; [|split].
  - intros Hreq Ha Hb cents.
    unfold Server.ambassador_approvePayout. monad. go.
    rewrite Hreq. go. rewrite Hpending, bool_decide_eq_false_2 by (intros ?; done). go.
    fold referrer. rewrite Ha. go. rewrite Hb. cbn [le0].
    rewrite positive_not_le0 by done. go.
    cbn [fmap option_fmap option_map]. fold cents destination.
    destruct (stripe cents destination); go; done.
  - intros Hreq Ha Hb cents.
    unfold Server.partner_approvePayout. monad. go.
    rewrite Hreq. go. rewrite Hpending, bool_decide_eq_false_2 by (intros ?; done). go.
    fold referrer. rewrite Ha. go. rewrite Hb. unfold or0, default. cbn [from_option id].
    rewrite positive_not_le0 by done. go.
    fold cents destination.
    destruct (stripe cents destination); go; done.
  - intros Hreq Ha Hb.
    unfold Korpo.approvePayoutForAmbassador. monad. go.
    rewrite Hreq. go. rewrite Hpending, bool_decide_eq_false_2 by (intros ?; done). go.
    fold referrer. rewrite Ha. go. rewrite Hb. cbn [fmap option_fmap option_map le0].
    rewrite tenth_not_le0 by done. go. fold destination.
    destruct (stripe _ destination); go; cbn [snd app]; eauto.
Qed.

Lemma approval_pays_current_balance_witness :
  run (Server.ambassador_approvePayout accepting 5000 (Some 0%nat)) shop
  = (Json 200 (PayoutPaid (Some 150.456%Q)),
     set_ambassadors (alter (Server.settled 5000) "amb1")
       (set_ambassadorPayouts (updateAt 0 (Korpo.approved 5000 "tr_1")) shop),
     [Transfer (Some 15046) "acct_amb" (inr "tr_1");
      Wrote "ambassadorPayouts" (AutoId 0); Wrote "ambassadors" (DocId "amb1")])
  ∧ r_availableBalance (Server.settled 5000 amb1) = Some 0%Q.
Proof.
  pose proof (approval_pays_current_balance accepting 5000 0%nat shop
                (mkPayout "amb1" "acct_amb" 150.456%Q "pending" 2000 None None None)
                amb1 150.456%Q eq_refl eq_refl) as [H _].
  exact (H eq_refl eq_refl eq_refl).
Defined.

(** C1 as stated fails on [korpo.js]: with 150.456 both earned and
    available, the approval transfers 1505 minor units, not 15046, and the
    ambassador document, its available balance included, is left as it
    was. *)
Lemma korpo_approval_pays_a_tenth :
  let '(reply, d', tr) := run (Korpo.approvePayoutForAmbassador accepting 5000 (Some 0%nat)) shop in
  http reply = 200
  ∧ transfers tr = [(Some 1505, "acct_amb")]
  ∧ transfers tr ≠ [(Some (Math_round (150.456 * 100)), "acct_amb")]
  ∧ ambassadors d' !! "amb1" = Some amb1
  ∧ r_availableBalance amb1 = Some 150.456%Q.
Proof. vm_compute. repeat split; congruence. Qed.

Lemma transfer_failure_changes_nothing_witness :
  let '(reply, d', tr) := run (Server.ambassador_approvePayout refusing 5000 (Some 0%nat)) shop in
  d' = shop ∧ reply = Json 500 (Error "insufficient funds")
  ∧ tr = [Transfer (Some 15046) "acct_amb" (inl "insufficient funds")].
Proof.
  destruct (run (Server.ambassador_approvePayout refusing 5000 (Some 0%nat)) shop)
    as [[reply d'] tr] eqn:Hrun.
  assert (Hin : Server.ambassador_approvePayout ∈ approvals) by (by repeat constructor).
  destruct (transfer_failure_changes_nothing _ _ _ _ _ _ _ _ Hin Hrun) as [H _].
  apply (H (Some 15046) "acct_amb" "insufficient funds").
  vm_compute in Hrun. injection Hrun as _ _ <-. by constructor.
Defined.

Lemma approve_twice_witness :
  let d' := set_ambassadors (alter (Server.settled 5000) "amb1")
              (set_ambassadorPayouts (updateAt 0 (Korpo.approved 5000 "tr_1")) shop) in
  run (Server.ambassador_approvePayout accepting 6000 (Some 0%nat)) d'
  = (Json 400 (Error "Request already processed"), d', []).
Proof.
  intros d'.
  assert (Hin : Server.ambassador_approvePayout ∈ approvals) by (by repeat constructor).
  apply (approve_twice _ accepting 5000 (Some 0%nat) shop (PayoutPaid (Some 150.456%Q)) d'
           [Transfer (Some 15046) "acct_amb" (inr "tr_1");
            Wrote "ambassadorPayouts" (AutoId 0); Wrote "ambassadors" (DocId "amb1")]
           accepting 6000 Hin).
  by vm_compute.
Defined.

Lemma korpo_approval_never_settles_witness :
  let w := Nat.iter 3 (payoutCycle Korpo.requestPayoutForAmbassador
                         Korpo.approvePayoutForAmbassador accepting 5000 "amb1" "acct_amb")
             (mkWorld shop []) in
  ambassadors (db w) = ambassadors shop
  ∧ transfers (trace w) = [(Some 1505, "acct_amb"); (Some 1505, "acct_amb"); (Some 1505, "acct_amb")].
Proof.
  intros w.
  assert (Hid : "amb1" ≠ "") by done.
  assert (Hacct : "acct_amb" ≠ "") by done.
  destruct (korpo_approval_never_settles accepting 5000 "amb1" "acct_amb" "tr_1" amb1
              150.456%Q shop 3 Hid Hacct eq_refl eq_refl eq_refl eq_refl)
    as (_ & _ & H & _).
  destruct (H eq_refl) as (_ & Hamb & _ & Htr).
  split; [exact Hamb | exact Htr].
Defined.

(** ** Redemption *)

(** C6 at the failing input.  The validation route compares [timesUsed]
    with a [null] usage limit as with [0]: a code without a limit, inside
    its validity window, is refused with "Usage limit reached" as soon as
    [timesUsed >= 0], although the redemption route's test, which checks for
    [null], lets the same code through. *)
Theorem validate_refuses_unlimited_code now code d i promo :
  list_find (λ p, c_code p = code) (promoCodes d) = Some (i, promo) →
  Korpo.toDate (c_validFrom promo) ≤ now ≤ Korpo.toDate (c_validTo promo) →
  c_usageLimit promo = None →
  0 ≤ c_timesUsed promo →
  run (Korpo.promoCode_validate now code) d = (Json 400 (Error "Usage limit reached"), d, [])
  ∧ Korpo.usageLimitReached (c_timesUsed promo) (c_usageLimit promo) = false.
Proof.
  intros Hfind [Hfrom Hto] Hnull Hused.
  split; [|by rewrite Hnull].
  unfold Korpo.promoCode_validate. monad. go.
  rewrite Hfind. cbn [fmap option_fmap option_map snd]. go.
  rewrite !bool_decide_eq_false_2 by lia. cbn [orb]. go.
  rewrite Hnull. cbn [default from_option].
  rewrite bool_decide_eq_true_2 by done. reflexivity.
Qed.

Lemma validate_refuses_unlimited_code_witness :
  run (Korpo.promoCode_validate 5000 "PROMO1") unlimited
  = (Json 400 (Error "Usage limit reached"), unlimited, []).
Proof.
  refine (proj1 (validate_refuses_unlimited_code 5000 "PROMO1" unlimited 0%nat
    (mkCode "PROMO1" (Some "par1") (Some 20%Q) (Some 1000) (Some 9000) None 0 "active")
    eq_refl _ eq_refl _)).
  - vm_compute. split; discriminate.
  - vm_compute. discriminate.
Defined.

(** C3 at the failing input.  Neither promo redemption route looks into
    [partnerTracking]: a user who already has a tracking entry for a code
    redeems it again with success, and one more entry for the same
    (user, code) pair is written. *)
Theorem promo_redeemed_again now code userId amount d promoId promoData :
  userId ≠ "" →
  userId ∈ users d →
  list_find (λ p, c_code p = code) (promoCodes d) = Some (promoId, promoData) →
  Korpo.usageLimitReached (c_timesUsed promoData) (c_usageLimit promoData) = false →
  (∃ t, t ∈ partnerTracking d ∧ pt_userId t = userId ∧ pt_promoCode t = code) →
  (∃ b d' tr t',
      run (Korpo.promoCode_use now code (Some userId) (Some amount)) d = (Json 200 b, d', tr)
      ∧ partnerTracking d' = partnerTracking d ++ [t']
      ∧ pt_userId t' = userId ∧ pt_promoCode t' = code)
  ∧ (∃ b d' tr t',
      run (Server.promoCode_use now code (Some userId) (Some amount)) d = (Json 200 b, d', tr)
      ∧ partnerTracking d' = partnerTracking d ++ [t']
      ∧ pt_userId t' = userId ∧ pt_promoCode t' = code).
Proof.
  intros Hid Huser Hfind Hlimit _.
  split.
  - unfold Korpo.promoCode_use. monad. rewrite required_Some by done. go.
    rewrite bool_decide_eq_false_2 by (intros ?; done). go.
    rewrite Hfind. go. cbn [fst snd]. rewrite Hlimit. go.
    destruct (required (c_owner promoData)) as [partnerId|]; cbn [mbind option_bind]; go;
      [destruct (partners d !! partnerId); go|];
      (do 4 eexists; split; [reflexivity|]; store; by unfold addDoc).
  - unfold Server.promoCode_use. monad. rewrite required_Some by done. go.
    rewrite bool_decide_eq_false_2 by (intros ?; done). go.
    rewrite Hfind. go. cbn [fst snd]. rewrite Hlimit. go.
    destruct (required (c_owner promoData)) as [partnerId|]; cbn [mbind option_bind]; go;
      [destruct (partners d !! partnerId); go|];
      (do 4 eexists; split; [reflexivity|]; store; by unfold addDoc).
Qed.

Lemma promo_redeemed_again_witness :
  ∃ b d' tr t',
    run (Korpo.promoCode_use 5000 "PROMO1" (Some "u1") (Some 100%Q)) redeemed = (Json 200 b, d', tr)
    ∧ partnerTracking d' = partnerTracking redeemed ++ [t']
    ∧ pt_userId t' = "u1" ∧ pt_promoCode t' = "PROMO1".
Proof.
  assert (Hid : "u1" ≠ "") by done.
  assert (Huser : "u1" ∈ users redeemed) by (by vm_compute).
  refine (proj1 (promo_redeemed_again 5000 "PROMO1" "u1" 100%Q redeemed 0%nat
    (mkCode "PROMO1" (Some "par1") (Some 20%Q) (Some 1000) (Some 9000) None 0 "active")
    Hid Huser eq_refl eq_refl _)).
  exists (mkPartnerTracking "u1" "PROMO1" 0 (Some "par1") 4000 100 20 20 80 56 24 30).
  split; [by constructor | done].
Defined.

Lemma list_find_alter_same {A} (P : A → Prop) `{∀ x, Decision (P x)} (f : A → A)
  (l : list A) i x :
  list_find P l = Some (i, x) → P (f x) → list_find P (alter f i l) = Some (i, f x).
Proof.
  intros Hfind HP. apply list_find_Some in Hfind as (Hi & _ & Hbefore).
  apply list_find_Some. split; [|split; [done|]].
  - by rewrite list_lookup_alter, Hi, decide_True.
  - intros j y Hj Hlt. rewrite list_lookup_alter_ne in Hj by lia. eauto.
Qed.

(** What one promo redemption does to the code collection: nothing, with an
    answer other than success, or one more use of the first code of that
    name, whose limit was not reached. *)
Lemma korpo_promo_use_codes now code userId amount d reply d' tr i c :
  list_find (λ p, c_code p = code) (promoCodes d) = Some (i, c) →
  run (Korpo.promoCode_use now code userId amount) d = (reply, d', tr) →
  (d' = d ∧ tr = [] ∧ http reply ≠ 200)
  ∨ (Korpo.usageLimitReached (c_timesUsed c) (c_usageLimit c) = false
     ∧ promoCodes d' = alter Korpo.used i (promoCodes d) ∧ http reply = 200).
Proof.
  intros Hfind Hrun. unfold Korpo.promoCode_use in Hrun. monad.
  destruct (required userId); [|left; go; by simplify_eq].
  destruct amount; [|left; go; by simplify_eq].
  revert Hrun. go. destruct (bool_decide _); [intros; left; by simplify_eq|].
  go. rewrite Hfind. go. cbn [fst snd].
  destruct (Korpo.usageLimitReached _ _) eqn:Hlimit; [intros; left; by simplify_eq|].
  go. destruct (required (c_owner c)) as [partnerId|]; cbn [mbind option_bind]; go;
    [destruct (partners d !! partnerId); go|]; intros; simplify_eq; right; store; done.
Qed.

(** The same for a referral redemption; the counter may also have been
    incremented by a call that then failed on a missing ambassador
    document. *)
Lemma referral_use_codes now code userId amount d reply d' tr i c :
  list_find (λ p, c_code p = code) (referralCodes d) = Some (i, c) →
  run (Server.referralCode_use now code userId amount) d = (reply, d', tr) →
  (d' = d ∧ tr = [] ∧ http reply ≠ 200)
  ∨ (Korpo.usageLimitReached (c_timesUsed c) (c_usageLimit c) = false
     ∧ referralCodes d' = alter Korpo.used i (referralCodes d)).
Proof.
  intros Hfind Hrun. unfold Server.referralCode_use in Hrun. monad.
  destruct (required userId); [|left; go; by simplify_eq].
  revert Hrun. go. destruct (bool_decide (_ ∉ _)); [intros; left; by simplify_eq|].
  go. rewrite Hfind. go. cbn [fst snd].
  destruct (bool_decide (c_status c ≠ "active")); [intros; left; by simplify_eq|]. go.
  destruct (match c_validFrom c with Some _ => _ | None => _ end);
    [intros; left; by simplify_eq|]. go.
  destruct (match c_validTo c with Some _ => _ | None => _ end);
    [intros; left; by simplify_eq|]. go.
  destruct (Korpo.usageLimitReached _ _) eqn:Hlimit; [intros; left; by simplify_eq|]. go.
  destruct (bool_decide (is_Some _)); [intros; left; by simplify_eq|]. go.
  destruct (required (c_owner c)) as [ambassadorId|]; cbn [mbind option_bind]; go;
    [destruct (ambassadors d !! ambassadorId); go|]; intros; simplify_eq; right; store; done.
Qed.

Section Limit.
Variable codes : Db → list Code.
Variable use : Z → string → option string → option Q → H Reply.
Hypothesis step : ∀ now code userId amount d reply d' tr i c,
  list_find (λ p, c_code p = code) (codes d) = Some (i, c) →
  run (use now code userId amount) d = (reply, d', tr) →
  (d' = d ∧ tr = [] ∧ http reply ≠ 200)
  ∨ (Korpo.usageLimitReached (c_timesUsed c) (c_usageLimit c) = false
     ∧ codes d' = alter Korpo.used i (codes d)).

Lemma redeemAll_bounded attempts code d i c N :
  list_find (λ p, c_code p = code) (codes d) = Some (i, c) →
  c_usageLimit c = Some N →
  c_timesUsed c ≤ N →
  ∃ c', list_find (λ p, c_code p = code) (codes (redeemAll use code attempts d).1)
        = Some (i, c')
        ∧ c_usageLimit c' = Some N
        ∧ c_timesUsed c + Z.of_nat (redeemAll use code attempts d).2 ≤ c_timesUsed c'
        ∧ c_timesUsed c' ≤ N.
Proof.
  revert d c. induction attempts as [|a rest IH]; intros d c Hfind Hlimit Hle.
  - exists c. cbn. repeat split; [done..|lia|done].
  - cbn [redeemAll].
    destruct (run (use (at_now a) code (at_userId a) (at_amount a)) d)
      as [[reply d'] tr] eqn:Hrun.
    destruct (step _ _ _ _ _ _ _ _ _ _ Hfind Hrun) as [(-> & _ & Hfail) | (Hfree & Hcodes)].
    + destruct (IH d c Hfind Hlimit Hle) as (c' & Hfind' & Hlimit' & Hcount & Hle').
      destruct (redeemAll use code rest d) as [d'' n]. cbn [fst snd] in *.
      rewrite bool_decide_eq_false_2 by done. eauto.
    + assert (c_timesUsed c < N) as Hlt.
      { unfold Korpo.usageLimitReached in Hfree. rewrite Hlimit in Hfree.
        apply bool_decide_eq_false in Hfree. lia. }
      assert (list_find (λ p, c_code p = code) (codes d') = Some (i, Korpo.used c)) as Hfind'.
      { rewrite Hcodes. apply list_find_alter_same; [done|].
        apply list_find_Some in Hfind as (_ & Hcode & _). done. }
      destruct (IH d' (Korpo.used c) Hfind' Hlimit) as (c' & Hfind'' & Hlimit' & Hcount & Hle');
        [cbn; lia|].
      destruct (redeemAll use code rest d') as [d'' n]. cbn [fst snd] in *.
      exists c'. repeat split; [done..| |done].
      cbn [Korpo.used c_timesUsed] in Hcount. case_bool_decide; lia.
Qed.
End Limit.

(** C4.  For a code whose usage limit is [N]: once [timesUsed >= N] every
    redemption attempt is answered with an error (the usage-limit error
    when the request passes the checks made before it) and writes nothing;
    and starting from [timesUsed <= N], after any sequence of attempts by
    any users the code still has [timesUsed <= N], the attempts answered
    with success being at most [N - timesUsed].  This holds for the promo
    redemption of [korpo.js] and for the referral redemption. *)
Theorem usage_limit_is_never_exceeded code d i c N :
  c_usageLimit c = Some N →
  (list_find (λ p, c_code p = code) (promoCodes d) = Some (i, c) →
   (N ≤ c_timesUsed c → ∀ now userId amount,
      ∃ reply, run (Korpo.promoCode_use now code userId amount) d = (reply, d, [])
               ∧ http reply ≠ 200
               ∧ (∀ u, required userId = Some u → u ∈ users d → is_Some amount →
                       reply = Json 400 (Error "Usage limit exceeded")))
   ∧ (c_timesUsed c ≤ N → ∀ attempts,
      ∃ c', list_find (λ p, c_code p = code)
              (promoCodes (redeemAll Korpo.promoCode_use code attempts d).1) = Some (i, c')
            ∧ c_usageLimit c' = Some N
            ∧ c_timesUsed c + Z.of_nat (redeemAll Korpo.promoCode_use code attempts d).2
              ≤ c_timesUsed c'
            ∧ c_timesUsed c' ≤ N))
  ∧ (list_find (λ p, c_code p = code) (referralCodes d) = Some (i, c) →
     (N ≤ c_timesUsed c → ∀ now userId amount,
        ∃ reply, run (Server.referralCode_use now code userId amount) d = (reply, d, [])
                 ∧ http reply ≠ 200
                 ∧ (∀ u, required userId = Some u → u ∈ users d →
                         c_status c = "active" →
                         (∀ t, c_validFrom c = Some t → t ≤ now) →
                         (∀ t, c_validTo c = Some t → now ≤ t) →
                         reply = Json 400 (Error "Referral code usage limit reached")))
     ∧ (c_timesUsed c ≤ N → ∀ attempts,
        ∃ c', list_find (λ p, c_code p = code)
                (referralCodes (redeemAll Server.referralCode_use code attempts d).1)
              = Some (i, c')
              ∧ c_usageLimit c' = Some N
              ∧ c_timesUsed c + Z.of_nat (redeemAll Server.referralCode_use code attempts d).2
                ≤ c_timesUsed c'
              ∧ c_timesUsed c' ≤ N)).
Proof.
  intros Hlimit.
  assert (N ≤ c_timesUsed c →
          Korpo.usageLimitReached (c_timesUsed c) (c_usageLimit c) = true) as Hreached.
  { intros. unfold Korpo.usageLimitReached. rewrite Hlimit. by apply bool_decide_eq_true_2. }
  split; intros Hfind; (split; [intros Hfull now userId amount | intros Hle attempts]).
  - destruct (run (Korpo.promoCode_use now code userId amount) d) as [[reply d'] tr] eqn:Hrun.
    destruct (korpo_promo_use_codes _ _ _ _ _ _ _ _ _ _ Hfind Hrun)
      as [(-> & -> & Hfail) | (Hfree & _)]; [|rewrite Hreached in Hfree; done].
    exists reply. repeat split; [done|].
    intros u Hu Huser [q ->]. revert Hrun. unfold Korpo.promoCode_use. monad.
    rewrite Hu. go. rewrite bool_decide_eq_false_2 by (intros ?; done). go.
    rewrite Hfind. go. cbn [fst snd]. rewrite Hreached by done. go. congruence.
  - apply (redeemAll_bounded promoCodes Korpo.promoCode_use); [|done..].
    intros now code' userId amount d0 reply d' tr j c0 Hfind0 Hrun.
    destruct (korpo_promo_use_codes _ _ _ _ _ _ _ _ _ _ Hfind0 Hrun) as [?|(? & ? & _)]; eauto.
  - destruct (run (Server.referralCode_use now code userId amount) d)
      as [[reply d'] tr] eqn:Hrun.
    destruct (referral_use_codes _ _ _ _ _ _ _ _ _ _ Hfind Hrun)
      as [(-> & -> & Hfail) | (Hfree & _)]; [|rewrite Hreached in Hfree; done].
    exists reply. repeat split; [done|].
    intros u Hu Huser Hactive Hfrom Hto. revert Hrun. unfold Server.referralCode_use. monad.
    rewrite Hu. go. rewrite bool_decide_eq_false_2 by (intros ?; done). go.
    rewrite Hfind. go. cbn [fst snd]. rewrite Hactive.
    rewrite bool_decide_eq_false_2 by (intros ?; done). go.
    destruct (c_validFrom c) as [t|] eqn:?;
      [rewrite bool_decide_eq_false_2 by (specialize (Hfrom t eq_refl); lia)|]; go;
      (destruct (c_validTo c) as [t'|] eqn:?;
         [rewrite bool_decide_eq_false_2 by (specialize (Hto t' eq_refl); lia)|]; go;
         rewrite Hreached by done; go; congruence).
  - by apply (redeemAll_bounded referralCodes Server.referralCode_use referral_use_codes).
Qed.

Lemma usage_limit_is_never_exceeded_witness :
  let attempts := [mkAttempt 5000 (Some "u1") (Some 100%Q); mkAttempt 5001 (Some "u2") (Some 100%Q)] in
  ∃ c', list_find (λ p, c_code p = "PROMO1")
          (promoCodes (redeemAll Korpo.promoCode_use "PROMO1" attempts shop).1) = Some (0%nat, c')
        ∧ c_usageLimit c' = Some 1
        ∧ 0 + Z.of_nat (redeemAll Korpo.promoCode_use "PROMO1" attempts shop).2 ≤ c_timesUsed c'
        ∧ c_timesUsed c' ≤ 1.
Proof.
  intros attempts.
  destruct (usage_limit_is_never_exceeded "PROMO1" shop 0%nat
    (mkCode "PROMO1" (Some "par1") (Some 20%Q) (Some 1000) (Some 9000) (Some 1) 0 "active")
    1 eq_refl) as [H _].
  destruct (H eq_refl) as [_ Hseq].
  apply Hseq. vm_compute. discriminate.
Defined.

(** ** The revenue split *)

Lemma share_bounds (finalAmount rate : Q) :
  (0 <= rate)%Q → (rate <= 1)%Q → (0 <= finalAmount)%Q →
  (0 <= finalAmount * rate)%Q ∧ (finalAmount * rate <= finalAmount)%Q
  ∧ (0 <= finalAmount - finalAmount * rate)%Q.
Proof. intros. repeat split; nra. Qed.

(** C7, as the code has it.  A successful promo redemption answers with, and
    records in its tracking entry, [partnerRevenue = finalAmount * rate] and
    [companyRevenue = finalAmount - partnerRevenue].  In [korpo.js] [rate]
    is the partner's [commission / 100], or [30 / 100] when the promo has
    no partner document or the document has no commission; in the later
    revision [rate] is the [commissionRate] of the partner document, when
    the document has one.  When [0 <= rate <= 1] and [finalAmount >= 0],
    then [0 <= partnerRevenue <= finalAmount] and [companyRevenue >= 0]. *)
Theorem revenue_split now code userId amount d b d' tr :
  (run (Korpo.promoCode_use now code userId amount) d = (Json 200 b, d', tr) →
   ∃ i c a discountPercentage discountAmount finalAmount companyRevenue partnerRevenue t,
     list_find (λ p, c_code p = code) (promoCodes d) = Some (i, c)
     ∧ amount = Some a
     ∧ b = PromoUsed discountPercentage discountAmount finalAmount companyRevenue partnerRevenue
     ∧ partnerTracking d' = partnerTracking d ++ [t]
     ∧ (pt_finalAmount t, pt_partnerRevenue t, pt_companyRevenue t)
       = (finalAmount, partnerRevenue, companyRevenue)
     ∧ finalAmount = (a - a * or0 (c_discount c) / 100)%Q
     ∧ let share :=
         default 30%Q ((required (c_owner c) ≫= (λ id, partners d !! id)) ≫= r_commission) in
       let rate := (share / 100)%Q in
       pt_partnerSharePercentage t = share
       ∧ (partnerRevenue == finalAmount * rate)%Q
       ∧ companyRevenue = (finalAmount - partnerRevenue)%Q
       ∧ ((0 <= rate)%Q → (rate <= 1)%Q → (0 <= finalAmount)%Q →
          (0 <= partnerRevenue)%Q ∧ (partnerRevenue <= finalAmount)%Q
          ∧ (0 <= companyRevenue)%Q))
  ∧ (run (Server.promoCode_use now code userId amount) d = (Json 200 b, d', tr) →
     ∃ i c a discountPercentage discountAmount finalAmount companyRevenue partnerRevenue t,
       list_find (λ p, c_code p = code) (promoCodes d) = Some (i, c)
       ∧ amount = Some a
       ∧ b = PromoUsed discountPercentage discountAmount finalAmount companyRevenue partnerRevenue
       ∧ partnerTracking d' = partnerTracking d ++ [t]
       ∧ (pt_finalAmount t, pt_partnerRevenue t, pt_companyRevenue t)
         = (finalAmount, partnerRevenue, companyRevenue)
       ∧ finalAmount = (a - a * or0 (c_discount c))%Q
       ∧ companyRevenue = (finalAmount - partnerRevenue)%Q
       ∧ ∀ partnerId partner rate,
           required (c_owner c) = Some partnerId →
           partners d !! partnerId = Some partner →
           r_commissionRate partner = Some rate →
           pt_partnerSharePercentage t = rate
           ∧ partnerRevenue = (finalAmount * rate)%Q
           ∧ ((0 <= rate)%Q → (rate <= 1)%Q → (0 <= finalAmount)%Q →
              (0 <= partnerRevenue)%Q ∧ (partnerRevenue <= finalAmount)%Q
              ∧ (0 <= companyRevenue)%Q)).
Proof.
  split; intros Hrun.
  - unfold Korpo.promoCode_use in Hrun. monad.
    destruct (required userId); [|go; by simplify_eq].
    destruct amount as [a|]; [|go; by simplify_eq].
    revert Hrun. go. destruct (bool_decide _); [intros; by simplify_eq|]. go.
    destruct (list_find _ (promoCodes d)) as [[i c]|] eqn:Hfind; [|intros; by simplify_eq].
    go. cbn [fst snd].
    destruct (Korpo.usageLimitReached _ _); [intros; by simplify_eq|]. go.
    assert (∀ f share : Q, (f * share / 100 == f * (share / 100))%Q) as Hrate
      by (intros; unfold Qdiv; ring).
    destruct (required (c_owner c)) as [partnerId|] eqn:Howner; cbn [mbind option_bind]; go;
      [destruct (partners d !! partnerId) eqn:Hpartner; go|]; intros; simplify_eq;
      (do 9 eexists; split; [reflexivity|]; rewrite Howner; cbn [mbind option_bind];
       rewrite ?Hpartner; repeat split; try reflexivity).
    all: try apply Hrate.
    all: cbn [mbind option_bind] in *;
      match goal with
      | H0 : (0 <= ?sh / 100)%Q, H1 : (_ <= 1)%Q, H2 : (0 <= ?f)%Q |- _ =>
          destruct (share_bounds f (sh / 100) H0 H1 H2) as (? & ? & ?);
          rewrite (Hrate f sh)
      end; done.
  - unfold Server.promoCode_use in Hrun. monad.
    destruct (required userId); [|go; by simplify_eq].
    destruct amount as [a|]; [|go; by simplify_eq].
    revert Hrun. go. destruct (bool_decide _); [intros; by simplify_eq|]. go.
    destruct (list_find _ (promoCodes d)) as [[i c]|] eqn:Hfind; [|intros; by simplify_eq].
    go. cbn [fst snd].
    destruct (Korpo.usageLimitReached _ _); [intros; by simplify_eq|]. go.
    destruct (required (c_owner c)) as [partnerId|] eqn:Howner; cbn [mbind option_bind]; go;
      [destruct (partners d !! partnerId) as [partner|] eqn:Hpartner; go|]; intros;
      simplify_eq;
      (do 9 eexists; do 7 (split; [reflexivity|]));
      intros partnerId' partner' rate Howner' Hpartner' Hrate; simplify_eq.
    cbn [mbind option_bind pt_partnerSharePercentage]. rewrite Hrate.
    cbn [default from_option id]. repeat split; try reflexivity; apply share_bounds; done.
Qed.

Lemma revenue_split_witness :
  (let '(reply, d', tr) :=
     run (Korpo.promoCode_use 5000 "PROMO1" (Some "u1") (Some 100%Q)) shop in
   ∃ i c a discountPercentage discountAmount finalAmount companyRevenue partnerRevenue t,
     list_find (λ p, c_code p = "PROMO1") (promoCodes shop) = Some (i, c)
     ∧ Some 100%Q = Some a
     ∧ body reply
       = PromoUsed discountPercentage discountAmount finalAmount companyRevenue partnerRevenue
     ∧ partnerTracking d' = partnerTracking shop ++ [t]
     ∧ (pt_finalAmount t, pt_partnerRevenue t, pt_companyRevenue t)
       = (finalAmount, partnerRevenue, companyRevenue)
     ∧ finalAmount = (a - a * or0 (c_discount c) / 100)%Q
     ∧ let share :=
         default 30%Q ((required (c_owner c) ≫= (λ id, partners shop !! id)) ≫= r_commission) in
       let rate := (share / 100)%Q in
       pt_partnerSharePercentage t = share
       ∧ (partnerRevenue == finalAmount * rate)%Q
       ∧ companyRevenue = (finalAmount - partnerRevenue)%Q
       ∧ ((0 <= rate)%Q → (rate <= 1)%Q → (0 <= finalAmount)%Q →
          (0 <= partnerRevenue)%Q ∧ (partnerRevenue <= finalAmount)%Q
          ∧ (0 <= companyRevenue)%Q))
  ∧ (let '(reply, d', tr) :=
       run (Server.promoCode_use 5000 "PROMO1" (Some "u1") (Some 100%Q)) fractional in
     ∃ discountPercentage discountAmount finalAmount companyRevenue partnerRevenue t,
       body reply
       = PromoUsed discountPercentage discountAmount finalAmount companyRevenue partnerRevenue
       ∧ partnerTracking d' = partnerTracking fractional ++ [t]
       ∧ finalAmount = (100 - 100 * 0.2)%Q
       ∧ companyRevenue = (finalAmount - partnerRevenue)%Q
       ∧ pt_partnerSharePercentage t = 0.3%Q
       ∧ partnerRevenue = (finalAmount * 0.3)%Q
       ∧ (0 <= partnerRevenue)%Q ∧ (partnerRevenue <= finalAmount)%Q
       ∧ (0 <= companyRevenue)%Q).
Proof.
  split.
  - destruct (run (Korpo.promoCode_use 5000 "PROMO1" (Some "u1") (Some 100%Q)) shop)
      as [[reply d'] tr] eqn:Hrun.
    assert (reply = Json 200 (body reply)) as Hreply
      by (vm_compute in Hrun; by injection Hrun as <- _ _).
    rewrite Hreply in Hrun.
    exact (proj1 (revenue_split _ _ _ _ _ _ _ _) Hrun).
  - destruct (run (Server.promoCode_use 5000 "PROMO1" (Some "u1") (Some 100%Q)) fractional)
      as [[reply d'] tr] eqn:Hrun.
    assert (reply = Json 200 (body reply)) as Hreply
      by (vm_compute in Hrun; by injection Hrun as <- _ _).
    rewrite Hreply in Hrun.
    destruct (proj2 (revenue_split _ _ _ _ _ _ _ _) Hrun)
      as (i & c & a & dp & da & f & cr & pr & t & Hfind & Ha & Hb & Ht & _ & Hf & Hcr & Hshare).
    assert (c = mkCode "PROMO1" (Some "par1") (Some 0.2%Q) (Some 1000) (Some 9000) None 0
                  "active") as Hc
      by (vm_compute in Hfind; by injection Hfind as _ <-).
    injection Ha as <-. rewrite Hc in Hf, Hshare. cbn [c_discount or0 default from_option id] in Hf.
    destruct (Hshare "par1" par1 0.3%Q eq_refl eq_refl eq_refl) as (Hrate & Hpr & Hbounds).
    destruct Hbounds as (H0 & H1 & H2).
    { by vm_compute. }
    { by vm_compute. }
    { rewrite Hf. by vm_compute. }
    exists dp, da, f, cr, pr, t. repeat split; assumption.
Defined.

(** The spec's scenario: 100 at 20% discount with a 30% commission gives a
    discount of 20, a final amount of 80, 24 for the partner and 56 for the
    company. *)
Example redemption_scenario :
  ∃ discountAmount finalAmount companyRevenue partnerRevenue,
    body (run (Korpo.promoCode_use 5000 "PROMO1" (Some "u1") (Some 100%Q)) shop).1.1
    = PromoUsed 20 discountAmount finalAmount companyRevenue partnerRevenue
    ∧ (discountAmount == 20)%Q ∧ (finalAmount == 80)%Q
    ∧ (partnerRevenue == 24)%Q ∧ (companyRevenue == 56)%Q.
Proof. vm_compute. do 4 eexists. repeat split; reflexivity. Qed.

(** C7 as stated fails without a sign condition on the amount, which no
    route checks: redeeming [-100] at a commission rate of [0.3] gives the
    partner [-24] and the company [-56]. *)
Lemma negative_amount_splits_negative :
  ∃ discountAmount finalAmount companyRevenue partnerRevenue,
    body (run (Korpo.promoCode_use 5000 "PROMO1" (Some "u1") (Some (-100)%Q)) shop).1.1
    = PromoUsed 20 discountAmount finalAmount companyRevenue partnerRevenue
    ∧ r_commission par1 = Some 30%Q
    ∧ (partnerRevenue == -24)%Q ∧ (companyRevenue == -56)%Q
    ∧ ¬ (0 <= partnerRevenue)%Q ∧ ¬ (0 <= companyRevenue)%Q.
Proof.
  vm_compute. do 4 eexists. repeat split; try reflexivity; intros H; by apply H.
Qed.

(** The fallback of the later revision, which the statement above leaves
    out: the route kept the number [30] of [korpo.js] but no longer divides
    by 100, so a promo without a partner commission rate credits thirty
    times the final amount (100 at a discount of 0.2: 2400 for the partner,
    -2320 for the company). *)
Example later_fallback_share :
  ∃ discountAmount finalAmount companyRevenue partnerRevenue,
    body (run (Server.promoCode_use 5000 "PROMO1" (Some "u1") (Some 100%Q)) orphan).1.1
    = PromoUsed 0.2 discountAmount finalAmount companyRevenue partnerRevenue
    ∧ (finalAmount == 80)%Q ∧ (partnerRevenue == 2400)%Q ∧ (companyRevenue == -2320)%Q.
Proof. vm_compute. do 4 eexists. repeat split; reflexivity. Qed.

(** ** Activation *)





(** ** Code generation *)

Lemma ambassador_loop_spins fuel d userId referralCode g :
  missing referralCode = true →
  is_Some (list_find (λ c, c_code c = "AMB" +:+ toUpperCase (slice_last 4 userId))
             (referralCodes d)) →
  Server.finalCode g = "" → Server.isUnique g = false →
  while fuel (λ g, negb (Server.isUnique g))
    (Server.ambassador_generate_body d userId referralCode) g
  = None.
Proof.
  intros Hmissing [found Hfound]. revert g.
  induction fuel as [|fuel IH]; intros g Hcode Hunique; cbn [while]; rewrite Hunique; [done|].
  cbn [negb]. unfold Server.ambassador_generate_body at 1.
  rewrite Hcode, (bool_decide_eq_true_2 ("" = "")) by done.
  rewrite Hfound, Hmissing. by apply IH.
Qed.

(** C9 at the failing input.  The generation loop of the ambassador
    application has no bound: when the applicant gives no referral code and
    the derived code ["AMB" + last four characters of the user id, in upper
    case] is already in [referralCodes], the loop asks the store for the
    same candidate again and again, and whatever the number of iterations
    allowed, neither the loop nor the handler has returned. *)
Theorem ambassador_generation_never_ends fuel d userId referralCode :
  missing referralCode = true →
  is_Some (list_find (λ c, c_code c = "AMB" +:+ toUpperCase (slice_last 4 userId))
             (referralCodes d)) →
  Server.ambassador_generate fuel d userId referralCode = None
  ∧ (∀ firstName lastName email whyJoin,
       userId ≠ "" →
       missing firstName || missing lastName || missing email || missing whyJoin = false →
       r_status <$> ambassadors d !! userId ≠ Some "pending" →
       r_status <$> ambassadors d !! userId ≠ Some "approved" →
       Server.ambassador_submitApplication fuel (Some userId) firstName lastName email whyJoin
         referralCode d = None).
Proof.
  intros Hmissing Htaken.
  assert (Server.ambassador_generate fuel d userId referralCode = None) as Hloop.
  { unfold Server.ambassador_generate. apply ambassador_loop_spins; try done.
    destruct referralCode as [s|]; [|done].
    cbn in Hmissing. apply bool_decide_eq_true in Hmissing. by subst. }
  split; [done|].
  intros firstName lastName email whyJoin Hid Hfields Hpending Happroved.
  unfold Server.ambassador_submitApplication.
  unfold missing at 1. rewrite (bool_decide_eq_false_2 (userId = "")) by done.
  cbn [orb] in *. rewrite Hfields. cbn [default from_option id].
  rewrite !bool_decide_eq_false_2 by done. cbn [orb].
  by rewrite Hloop.
Qed.

Lemma ambassador_generation_never_ends_witness :
  Server.ambassador_generate 1000 shop "user0001" None = None.
Proof.
  refine (proj1 (ambassador_generation_never_ends 1000 shop "user0001" None eq_refl _)).
  vm_compute. by eexists.
Defined.

(** The generation loop of the partner application, by contrast, is
    bounded: five iterations are always enough for it to finish, it makes
    at most five attempts, a code it reports as unique is not in
    [promoCodes], and it gives up only after exactly five attempts. *)
Lemma partner_loop_ends random d userId n :
  ∀ fuel g,
    0 ≤ Server.attempts g → 5 - Server.attempts g ≤ Z.of_nat n → (n ≤ fuel)%nat →
    (Server.isUnique g = true →
     list_find (λ c, c_code c = Server.finalCode g) (promoCodes d) = None) →
    ∃ g',
      while fuel (λ g, negb (Server.isUnique g) && bool_decide (Server.attempts g < 5))
        (Server.partner_generate_body random d userId) g = Some (inr g')
      ∧ Server.attempts g' ≤ Z.max 5 (Server.attempts g)
      ∧ (Server.isUnique g' = true →
         list_find (λ c, c_code c = Server.finalCode g') (promoCodes d) = None)
      ∧ (Server.isUnique g' = false → 5 ≤ Server.attempts g').
Proof.
  induction n as [|n IH]; intros fuel g Hpos Hmeasure Hfuel Hunique.
  - exists g. destruct fuel; cbn [while];
      rewrite (bool_decide_eq_false_2 (Server.attempts g < 5)) by lia;
      rewrite andb_false_r; (repeat split; [lia|done|lia]).
  - destruct fuel as [|fuel]; [lia|]. cbn [while].
    destruct (Server.isUnique g) eqn:Hu; cbn [negb andb].
    { exists g. repeat split; [lia|auto|congruence]. }
    case_bool_decide as Hlt; [|exists g; repeat split; [lia|congruence|lia]].
    unfold Server.partner_generate_body at 1.
    set (candidate := if bool_decide (Server.finalCode g = "") then _ else _).
    destruct (list_find (λ c, c_code c = candidate) (promoCodes d)) eqn:Hfind.
    + edestruct (IH fuel) as (g' & Hrun & Hle & Hok & Hgave); [..|exists g'; rewrite Hrun];
        cbn [Server.attempts Server.isUnique Server.finalCode] in *; try lia; try done.
      repeat split; [lia|done..].
    + edestruct (IH fuel) as (g' & Hrun & Hle & Hok & Hgave); [..|exists g'; rewrite Hrun];
        cbn [Server.attempts Server.isUnique Server.finalCode] in *; try lia; try done.
      repeat split; [lia|done..].
Qed.

(** X1.  The generation loop of the partner application always finishes
    within five iterations, after at most five attempts; the code it
    reports as unique is not in [promoCodes]; it gives up only after five
    attempts, and then the handler answers 400 and writes nothing. *)
Theorem partner_generation_is_bounded fuel random d userId promoCode status discountRate
  commissionRate :
  (5 ≤ fuel)%nat →
  ∃ g,
    Server.partner_generate fuel random d userId promoCode = Some (inr g)
    ∧ Server.attempts g ≤ 5
    ∧ (Server.isUnique g = true →
       list_find (λ c, c_code c = Server.finalCode g) (promoCodes d) = None)
    ∧ (Server.isUnique g = false →
       Server.attempts g = 5
       ∧ (userId ∈ users d →
          Server.partner_submitApplication fuel random userId promoCode status discountRate
            commissionRate d
          = Some (Json 400 (Error "Failed to generate unique promo code. Try again."), d, []))).
Proof.
  intros Hfuel.
  destruct (partner_loop_ends random d userId 5 fuel
              (Server.mkGen (default "" promoCode) false 0 0))
    as (g & Hrun & Hle & Hok & Hgave); cbn; try lia; try done.
  exists g. split; [exact Hrun|]. split; [cbn in Hle; lia|]. split; [done|].
  intros Hu. specialize (Hgave Hu). split; [cbn in Hle; lia|].
  intros Huser. unfold Server.partner_submitApplication.
  rewrite bool_decide_eq_false_2 by (intros ?; done).
  unfold Server.partner_generate. rewrite Hrun. monad. rewrite Hu. reflexivity.
Qed.

Lemma partner_generation_is_bounded_witness :
  ∃ g,
    Server.partner_generate 5 (λ _, 7) shop "user0001" None = Some (inr g)
    ∧ Server.attempts g ≤ 5.
Proof.
  destruct (partner_generation_is_bounded 5 (λ _, 7) shop "user0001" None None None None)
    as (g & Hrun & Hle & _); [lia|].
  exists g. split; [exact Hrun | exact Hle].
Defined.

(** X2.  A partner who asks for a promo code that is already taken is not
    told so: the loop drops the requested code and, if the first generated
    candidate is free, the application goes on with the candidate
    ["PRM" + last four characters of the user id in upper case + a random
    number]. *)
Theorem partner_requested_code_is_replaced fuel random d userId requested :
  (2 ≤ fuel)%nat →
  requested ≠ "" →
  is_Some (list_find (λ c, c_code c = requested) (promoCodes d)) →
  let candidate := "PRM" +:+ toUpperCase (slice_last 4 userId) +:+ pretty (random 0%nat) in
  list_find (λ c, c_code c = candidate) (promoCodes d) = None →
  Server.partner_generate fuel random d userId (Some requested)
  = Some (inr (Server.mkGen candidate true 2 1)).
Proof.
  intros Hfuel Hne [found Hfound] candidate Hfree.
  destruct fuel as [|[|fuel]]; [lia..|].
  unfold Server.partner_generate. cbn [while default from_option id].
  cbn [Server.isUnique Server.attempts negb andb].
  rewrite (bool_decide_eq_true_2 (0 < 5)) by lia.
  unfold Server.partner_generate_body at 1. cbn [Server.finalCode Server.draws Server.attempts].
  rewrite (bool_decide_eq_false_2 (requested = "")) by done. rewrite Hfound.
  cbn [Server.isUnique Server.attempts negb andb].
  rewrite (bool_decide_eq_true_2 (0 + 1 < 5)) by lia.
  unfold Server.partner_generate_body at 1. cbn [Server.finalCode Server.draws Server.attempts].
  rewrite (bool_decide_eq_true_2 ("" = "")) by done. fold candidate. rewrite Hfree.
  destruct fuel; reflexivity.
Qed.

Lemma partner_requested_code_is_replaced_witness :
  Server.partner_generate 5 (λ _, 7) shop "user0001" (Some "PROMO1")
  = Some (inr (Server.mkGen "PRM00017" true 2 1)).
Proof.
  assert (Hne : "PROMO1" ≠ "") by done.
  refine (partner_requested_code_is_replaced 5 (λ _, 7) shop "user0001" "PROMO1" _ Hne _ _).
  - lia.
  - vm_compute. by eexists.
  - by vm_compute.
Defined.

(** X3.  What the generation loop of the ambassador application does, case
    by case: a requested code that is free is kept; a requested code that
    is taken is refused with 400; without a requested code the derived code
    is used when it is free; and the loop is still running after any number
    of iterations exactly when no code was requested and the derived code
    is taken. *)
Theorem ambassador_generation_cases fuel d userId referralCode :
  (1 ≤ fuel)%nat →
  let requested := default "" referralCode in
  let derived := "AMB" +:+ toUpperCase (slice_last 4 userId) in
  let taken code := is_Some (list_find (λ c, c_code c = code) (referralCodes d)) in
  (requested ≠ "" → ¬ taken requested →
   Server.ambassador_generate fuel d userId referralCode
   = Some (inr (Server.mkGen requested true 0 0)))
  ∧ (requested ≠ "" → taken requested →
     Server.ambassador_generate fuel d userId referralCode
     = Some (inl (Json 400 (Error "Referral code already exists. Please choose another one."))))
  ∧ (requested = "" → ¬ taken derived →
     Server.ambassador_generate fuel d userId referralCode
     = Some (inr (Server.mkGen derived true 0 0)))
  ∧ (Server.ambassador_generate fuel d userId referralCode = None
     ↔ requested = "" ∧ taken derived).
Proof.
  intros Hfuel requested derived taken.
  destruct fuel as [|fuel]; [lia|].
  assert (missing referralCode = bool_decide (requested = "")) as Hmissing
    by (by destruct referralCode).
  assert (∀ code, ¬ taken code → list_find (λ c, c_code c = code) (referralCodes d) = None)
    as Hfree.
  { intros code Hno. destruct (list_find _ _) eqn:E; [|done]. destruct Hno. by eexists. }
  assert (requested ≠ "" → ¬ taken requested →
          Server.ambassador_generate (S fuel) d userId referralCode
          = Some (inr (Server.mkGen requested true 0 0))) as Hkept.
  { intros Hne Hno. unfold Server.ambassador_generate. cbn [while Server.isUnique negb].
    unfold Server.ambassador_generate_body at 1. cbn [Server.finalCode].
    fold requested. rewrite bool_decide_eq_false_2 by done. rewrite (Hfree _ Hno).
    destruct fuel; reflexivity. }
  assert (requested ≠ "" → taken requested →
          Server.ambassador_generate (S fuel) d userId referralCode
          = Some (inl (Json 400
                    (Error "Referral code already exists. Please choose another one."))))
    as Hrefused.
  { intros Hne [found Hfound]. unfold Server.ambassador_generate.
    cbn [while Server.isUnique negb].
    unfold Server.ambassador_generate_body at 1. cbn [Server.finalCode].
    fold requested. rewrite bool_decide_eq_false_2 by done. rewrite Hfound, Hmissing.
    by rewrite bool_decide_eq_false_2. }
  assert (requested = "" → ¬ taken derived →
          Server.ambassador_generate (S fuel) d userId referralCode
          = Some (inr (Server.mkGen derived true 0 0))) as Hderived.
  { intros Heq Hno. unfold Server.ambassador_generate. cbn [while Server.isUnique negb].
    unfold Server.ambassador_generate_body at 1. cbn [Server.finalCode].
    fold requested. rewrite bool_decide_eq_true_2 by done. fold derived.
    rewrite (Hfree _ Hno). destruct fuel; reflexivity. }
  split; [exact Hkept|]. split; [exact Hrefused|]. split; [exact Hderived|]. split.
  - intros Hnone. destruct (decide (requested = "")) as [Heq|Hne].
    + split; [done|]. destruct (list_find (λ c, c_code c = derived) (referralCodes d)) eqn:E.
      * by eexists.
      * rewrite Hderived in Hnone; [done..|]. intros [? ?]. unfold derived in *. congruence.
    + destruct (list_find (λ c, c_code c = requested) (referralCodes d)) eqn:E.
      * rewrite Hrefused in Hnone; [done..|]. by eexists.
      * rewrite Hkept in Hnone; [done..|]. intros [? ?]. congruence.
  - intros [Heq Htaken]. unfold Server.ambassador_generate.
    apply ambassador_loop_spins; try done.
    rewrite Hmissing. by apply bool_decide_eq_true_2.
Qed.

Lemma ambassador_generation_cases_witness :
  Server.ambassador_generate 1 shop "user0002" None
  = Some (inr (Server.mkGen "AMB0002" true 0 0)).
Proof.
  destruct (ambassador_generation_cases 1 shop "user0002" None) as (_ & _ & H & _); [lia|].
  apply H; [done|]. vm_compute. intros [x Hx]. discriminate Hx.
Defined.

Lemma list_find_alter_kept {A} (P : A → Prop) `{∀ x, Decision (P x)} (f : A → A)
  (l : list A) i :
  (∀ x, P x → P (f x)) →
  is_Some (list_find P l) → is_Some (list_find P (alter f i l)).
Proof.
  intros Hf [[j x] Hfind]. apply list_find_Some in Hfind as (Hj & HP & _).
  destruct (decide (i = j)) as [->|Hne].
  - apply (list_find_elem_of P _ (f x)); [|by apply Hf].
    apply list_elem_of_lookup. exists j. by rewrite list_lookup_alter, Hj, decide_True.
  - apply (list_find_elem_of P _ x); [|done].
    apply list_elem_of_lookup. exists j. by rewrite list_lookup_alter_ne.
Qed.

Lemma ambassador_submit_hangs fuel d userId firstName lastName email whyJoin :
  userId ≠ "" →
  missing firstName || missing lastName || missing email || missing whyJoin = false →
  r_status <$> ambassadors d !! userId ≠ Some "pending" →
  r_status <$> ambassadors d !! userId ≠ Some "approved" →
  is_Some (list_find (λ c, c_code c = "AMB" +:+ toUpperCase (slice_last 4 userId))
             (referralCodes d)) →
  Server.ambassador_submitApplication fuel (Some userId) firstName lastName email whyJoin None d
  = None.
Proof.
  intros Hid Hfields Hpending Happroved Htaken.
  unfold Server.ambassador_submitApplication.
  unfold missing at 1. rewrite (bool_decide_eq_false_2 (userId = "")) by done.
  cbn [orb] in *. rewrite Hfields. cbn [default from_option id].
  rewrite !bool_decide_eq_false_2 by done. cbn [orb].
  unfold Server.ambassador_generate. by rewrite ambassador_loop_spins.
Qed.

(** X4.  An applicant who was declined cannot apply again without choosing
    a code: the first application (no referral code given, derived code
    free) is accepted and stores the derived code; declining it leaves that
    code in [referralCodes]; and the second application then never
    returns, whatever the number of loop iterations allowed. *)
Theorem declined_applicant_hangs fuel1 now userId firstName lastName email whyJoin d :
  (1 ≤ fuel1)%nat →
  userId ≠ "" →
  missing firstName || missing lastName || missing email || missing whyJoin = false →
  userId ∈ users d →
  ambassadors d !! userId = None →
  list_find (λ c, c_code c = "AMB" +:+ toUpperCase (slice_last 4 userId)) (referralCodes d)
  = None →
  ∃ r1 d1 tr1 r2 d2 tr2,
    Server.ambassador_submitApplication fuel1 (Some userId) firstName lastName email whyJoin
      None d = Some (r1, d1, tr1)
    ∧ http r1 = 201
    ∧ run (Server.ambassador_updateStatus now (Some userId) (Some "declined")) d1 = (r2, d2, tr2)
    ∧ http r2 = 200
    ∧ r_status <$> ambassadors d2 !! userId = Some "declined"
    ∧ ∀ fuel,
        Server.ambassador_submitApplication fuel (Some userId) firstName lastName email whyJoin
          None d2 = None.
Proof.
  intros Hfuel Hid Hfields Huser Hnew Hfree.
  set (derived := "AMB" +:+ toUpperCase (slice_last 4 userId)) in *.
  destruct fuel1 as [|fuel1]; [lia|].
  assert (Server.ambassador_generate (S fuel1) d userId None
          = Some (inr (Server.mkGen derived true 0 0))) as Hgen.
  { unfold Server.ambassador_generate. cbn [while Server.isUnique negb default from_option].
    unfold Server.ambassador_generate_body at 1. cbn [Server.finalCode].
    rewrite (bool_decide_eq_true_2 ("" = "")) by done. fold derived. rewrite Hfree.
    destruct fuel1; reflexivity. }
  set (code := mkCode derived (Some userId) None None None (Some 100) 0 "pending").
  set (d1 := set_ambassadors
               (insert userId (Server.applied derived (length (referralCodes d)) None))
               (set_referralCodes (addDoc code) d)).
  assert (Server.ambassador_submitApplication (S fuel1) (Some userId) firstName lastName email
            whyJoin None d
          = Some (Json 201 (StatusUpdated (Some derived)), d1,
                  [Wrote "referralCodes" (AutoId (length (referralCodes d)));
                   Wrote "ambassadors" (DocId userId); Wrote "users" (DocId userId)])) as Hfirst.
  { unfold Server.ambassador_submitApplication.
    unfold missing at 1. rewrite (bool_decide_eq_false_2 (userId = "")) by done.
    cbn [orb] in *. rewrite Hfields. cbn [default from_option id].
    rewrite Hnew. cbn [fmap option_fmap option_map].
    rewrite !bool_decide_eq_false_2 by done. cbn [orb].
    rewrite Hgen. monad. go. cbn [Server.finalCode].
    rewrite bool_decide_eq_false_2 by (intros ?; done). go. reflexivity. }
  assert (is_Some (list_find (λ c, c_owner c = Some userId) (referralCodes d1))) as [[i c] Howner].
  { apply (list_find_elem_of _ _ code); [|done].
    subst d1. store. unfold addDoc. apply elem_of_app. right. by apply list_elem_of_singleton. }
  destruct (run (Server.ambassador_updateStatus now (Some userId) (Some "declined")) d1)
    as [[r2 d2] tr2] eqn:Hsecond.
  assert (http r2 = 200
          ∧ referralCodes d2 = alter (Server.with_code_status "inactive") i (referralCodes d1)
          ∧ ambassadors d2 = alter (Server.with_status "declined") userId (ambassadors d1))
    as (Hr2 & Hcodes & Hamb).
  { revert Hsecond. unfold Server.ambassador_updateStatus. monad.
    rewrite !required_Some by done. go.
    replace (ambassadors d1 !! userId)
      with (Some (Server.applied derived (length (referralCodes d)) None))
      by (subst d1; store; by rewrite lookup_insert_eq).
    go. rewrite Howner. go.
    rewrite (bool_decide_eq_false_2 ("declined" = "approved")) by done.
    rewrite (bool_decide_eq_true_2 ("declined" = "declined")) by done. go.
    replace (users d1) with (users d) by done.
    rewrite bool_decide_eq_false_2 by (intros ?; done). go.
    intros; simplify_eq. store. done. }
  assert (r_status <$> ambassadors d2 !! userId = Some "declined") as Hdeclined.
  { rewrite Hamb, lookup_alter_eq. subst d1. store. by rewrite lookup_insert_eq. }
  eexists _, d1, _, r2, d2, tr2.
  split; [exact Hfirst|]. repeat split; try done.
  intros fuel. apply ambassador_submit_hangs; try done; try (rewrite Hdeclined; done).
  rewrite Hcodes. apply list_find_alter_kept; [done|].
  apply (list_find_elem_of _ _ code); [|done].
  subst d1. store. unfold addDoc. apply elem_of_app. right. by apply list_elem_of_singleton.
Qed.

Lemma declined_applicant_hangs_witness :
  ∃ r1 d1 tr1 r2 d2 tr2,
    Server.ambassador_submitApplication 1 (Some "u2") (Some "Ada") (Some "Lee")
      (Some "ada@example.org") (Some "reach") None shop = Some (r1, d1, tr1)
    ∧ http r1 = 201
    ∧ run (Server.ambassador_updateStatus 5000 (Some "u2") (Some "declined")) d1 = (r2, d2, tr2)
    ∧ http r2 = 200
    ∧ r_status <$> ambassadors d2 !! "u2" = Some "declined"
    ∧ ∀ fuel,
        Server.ambassador_submitApplication fuel (Some "u2") (Some "Ada") (Some "Lee")
          (Some "ada@example.org") (Some "reach") None d2 = None.
Proof.
  assert (Hid : "u2" ≠ "") by done.
  assert (Huser : "u2" ∈ users shop) by (by vm_compute).
  refine (declined_applicant_hangs 1 5000 "u2" (Some "Ada") (Some "Lee")
            (Some "ada@example.org") (Some "reach") shop _ Hid eq_refl Huser eq_refl _).
  - lia.
  - by vm_compute.
Defined.

(** ** More on payouts *)




(** X6.  In the later revision a balance is paid out once.  After an
    approval that succeeded, the approval of any request of the same
    referrer, an older pending one or one made afterwards, answers 400
    without calling the transfer and without writing, as long as nothing
    has been credited to the referrer in between. *)
Theorem settled_balance_is_not_paid_again stripe now rid d b d' tr stripe2 now2 rid2
  request request2 :
  p_referrerId request2 = p_referrerId request →
  (run (Server.ambassador_approvePayout stripe now (Some rid)) d = (Json 200 b, d', tr) →
   ambassadorPayouts d !! rid = Some request →
   ambassadorPayouts d' !! rid2 = Some request2 →
   ∃ reply,
     run (Server.ambassador_approvePayout stripe2 now2 (Some rid2)) d' = (reply, d', [])
     ∧ http reply = 400)
  ∧ (run (Server.partner_approvePayout stripe now (Some rid)) d = (Json 200 b, d', tr) →
     partnerPayouts d !! rid = Some request →
     partnerPayouts d' !! rid2 = Some request2 →
     ∃ reply,
       run (Server.partner_approvePayout stripe2 now2 (Some rid2)) d' = (reply, d', [])
       ∧ http reply = 400).
Proof.
  intros Hsame. split; intros Hrun Hreq Hreq2.
  - unfold Server.ambassador_approvePayout in Hrun. monad. simpl in Hrun. split_in Hrun.
    unfold Server.ambassador_approvePayout. monad. go. store.
    rewrite Hreq2. go. destruct (bool_decide (p_status request2 ≠ "pending")); go; [eauto|].
    rewrite Hsame, lookup_alter_eq.
    match goal with H : ambassadors d !! _ = Some _ |- _ => rewrite H end.
    cbn [fmap option_fmap option_map]. go. cbn [Server.settled r_availableBalance le0].
    cbn. eauto.
  - unfold Server.partner_approvePayout in Hrun. monad. simpl in Hrun. split_in Hrun.
    unfold Server.partner_approvePayout. monad. go. store.
    rewrite Hreq2. go. destruct (bool_decide (p_status request2 ≠ "pending")); go; [eauto|].
    rewrite Hsame, lookup_alter_eq.
    match goal with H : partners d !! _ = Some _ |- _ => rewrite H end.
    cbn [fmap option_fmap option_map]. go. cbn [Server.settled r_availableBalance or0 default].
    cbn. eauto.
Qed.

Lemma settled_balance_is_not_paid_again_witness :
  ∃ reply,
    run (Server.ambassador_approvePayout accepting 6000 (Some 1%nat)) paid_once
    = (reply, paid_once, [])
    ∧ http reply = 400.
Proof.
  refine (proj1 (settled_balance_is_not_paid_again accepting 5000 0%nat asked_twice
    (PayoutPaid (Some 150.456%Q)) paid_once
    [Transfer (Some 15046) "acct_amb" (inr "tr_1");
     Wrote "ambassadorPayouts" (AutoId 0); Wrote "ambassadors" (DocId "amb1")]
    accepting 6000 1%nat
    (mkPayout "amb1" "acct_amb" 150.456%Q "pending" 2000 None None None)
    (mkPayout "amb1" "acct_amb" 150.456%Q "pending" 3000 None None None) eq_refl) _ _ _);
    by vm_compute.
Defined.

(** X7.  An approval answers 400 or 404 only when it has done nothing: the
    store is the same and the trace is empty; and it answers 200 only after
    a transfer that succeeded and a write of the request. *)
Theorem approval_errors_have_no_effect approve stripe now requestId d reply d' tr :
  approve ∈ approvals →
  run (approve stripe now requestId) d = (reply, d', tr) →
  (http reply = 400 ∨ http reply = 404 → d' = d ∧ tr = [])
  ∧ (http reply = 200 →
     ∃ amount destination id rid rest,
       requestId = Some rid
       ∧ tr = Transfer amount destination (inr id) :: rest
       ∧ (Wrote "ambassadorPayouts" (AutoId rid) ∈ rest
          ∨ Wrote "partnerPayouts" (AutoId rid) ∈ rest)).
Proof.
  intros Hin Hrun.
  each_approval Hin; monad; simpl in Hrun; split_in Hrun; cbn [http].
  all: split; [intros [?|?]; done || lia|intros ?; try done; try lia].
  all: do 5 eexists; split; [reflexivity|]; split; [reflexivity|].
  all: first [left; by repeat constructor | right; by repeat constructor].
Qed.

Lemma approval_errors_have_no_effect_witness :
  let '(reply, d', tr) := run (Korpo.approvePayoutForAmbassador accepting 5000 (Some 7%nat)) shop in
  http reply = 404 ∧ d' = shop ∧ tr = [].
Proof.
  destruct (run (Korpo.approvePayoutForAmbassador accepting 5000 (Some 7%nat)) shop)
    as [[reply d'] tr] eqn:Hrun.
  assert (Hin : Korpo.approvePayoutForAmbassador ∈ approvals) by (by repeat constructor).
  assert (http reply = 404) as Hreply by (vm_compute in Hrun; by injection Hrun as <- _ _).
  split; [exact Hreply|].
  apply (proj1 (approval_errors_have_no_effect _ _ _ _ _ _ _ _ Hin Hrun)). by right.
Defined.

(** ** Rounding to minor units *)




(** ** More on redemption in [korpo.js] *)

(** X9.  The validation route reads a missing [validTo] as the epoch: a
    code stored without an end date is reported as expired at any time
    after the epoch, whatever its other fields. *)
Theorem validate_without_end_date now code d i promo :
  list_find (λ p, c_code p = code) (promoCodes d) = Some (i, promo) →
  c_validTo promo = None →
  0 < now →
  run (Korpo.promoCode_validate now code) d = (Json 400 (Error "Promo expired"), d, []).
Proof.
  intros Hfind Hto Hnow.
  unfold Korpo.promoCode_validate. monad. go.
  rewrite Hfind. cbn [fmap option_fmap option_map snd]. go.
  rewrite Hto. unfold Korpo.toDate at 2. cbn [default from_option].
  rewrite (bool_decide_eq_true_2 (0 < now)) by done. rewrite orb_true_r. reflexivity.
Qed.

(** X10.  The redemption route of [korpo.js] checks neither the validity
    window nor anything else the validation route checks but the usage
    limit: a code that the validation route reports as expired is redeemed
    with success at the same instant. *)
Theorem expired_code_is_redeemed now code userId amount d i promo to :
  list_find (λ p, c_code p = code) (promoCodes d) = Some (i, promo) →
  c_validTo promo = Some to → to < now →
  userId ≠ "" → userId ∈ users d →
  Korpo.usageLimitReached (c_timesUsed promo) (c_usageLimit promo) = false →
  run (Korpo.promoCode_validate now code) d = (Json 400 (Error "Promo expired"), d, [])
  ∧ ∃ b d' tr,
      run (Korpo.promoCode_use now code (Some userId) (Some amount)) d = (Json 200 b, d', tr)
      ∧ promoCodes d' !! i = Some (Korpo.used promo).
Proof.
  intros Hfind Hto Hexpired Hid Huser Hlimit. split.
  - unfold Korpo.promoCode_validate. monad. go.
    rewrite Hfind. cbn [fmap option_fmap option_map snd]. go.
    rewrite Hto. unfold Korpo.toDate at 2. cbn [default from_option].
    rewrite (bool_decide_eq_true_2 (to < now)) by done. rewrite orb_true_r. reflexivity.
  - pose proof Hfind as Hfind'. apply list_find_Some in Hfind' as (Hi & _).
    unfold Korpo.promoCode_use. monad. rewrite required_Some by done. go.
    rewrite bool_decide_eq_false_2 by (intros ?; done). go.
    rewrite Hfind. go. cbn [fst snd]. rewrite Hlimit. go.
    destruct (required (c_owner promo)) as [partnerId|]; cbn [mbind option_bind]; go;
      [destruct (partners d !! partnerId); go|];
      (do 3 eexists; split; [reflexivity|]; store; unfold updateAt;
       by rewrite list_lookup_alter, Hi, decide_True).
Qed.

(** X11.  A redemption is seen by the verification route: after a user has
    redeemed a code with success, [POST /api/verifyUser] for that user and
    code answers "code used already", and changes nothing. *)
Theorem verify_sees_redemption now code userId amount d b d' tr :
  code ≠ "" →
  run (Korpo.promoCode_use now code userId amount) d = (Json 200 b, d', tr) →
  run (Korpo.verifyUser userId (Some code)) d' = (Json 200 (Message "code used already"), d', []).
Proof.
  intros Hcode Hrun. unfold Korpo.promoCode_use in Hrun. monad.
  destruct (required userId) as [u|] eqn:Hu; [|revert Hrun; go; intros; by simplify_eq].
  destruct amount as [a|]; [|revert Hrun; go; intros; by simplify_eq].
  revert Hrun. go. destruct (bool_decide _); [intros; by simplify_eq|]. go.
  destruct (list_find _ (promoCodes d)) as [[i c]|] eqn:Hfind; [|intros; by simplify_eq].
  go. cbn [fst snd].
  destruct (Korpo.usageLimitReached _ _); [intros; by simplify_eq|]. go.
  set (entry := mkPartnerTracking u code i _ now a _ _ _ _ _ _).
  assert (∀ l, is_Some (list_find (λ t, pt_userId t = u ∧ pt_promoCode t = code)
                          (addDoc entry l))) as Hfound.
  { intros l. apply (list_find_elem_of _ _ entry); [|done].
    unfold addDoc. apply elem_of_app. right. by apply list_elem_of_singleton. }
  destruct (required (c_owner c)) as [partnerId|]; cbn [mbind option_bind]; go;
    [destruct (partners d !! partnerId); go|]; intros; simplify_eq;
    unfold Korpo.verifyUser; monad; rewrite Hu, required_Some by done; go;
    (destruct (Hfound (partnerTracking d)) as [found ->]; reflexivity).
Qed.

Lemma validate_without_end_date_witness :
  run (Korpo.promoCode_validate 5000 "PROMO1") open_ended
  = (Json 400 (Error "Promo expired"), open_ended, []).
Proof.
  refine (validate_without_end_date 5000 "PROMO1" open_ended 0%nat
    (mkCode "PROMO1" (Some "par1") (Some 20%Q) (Some 1000) None (Some 1) 0 "active")
    eq_refl eq_refl _).
  lia.
Defined.

Lemma expired_code_is_redeemed_witness :
  run (Korpo.promoCode_validate 10000 "PROMO1") shop = (Json 400 (Error "Promo expired"), shop, [])
  ∧ ∃ b d' tr,
      run (Korpo.promoCode_use 10000 "PROMO1" (Some "u1") (Some 100%Q)) shop = (Json 200 b, d', tr)
      ∧ promoCodes d' !! 0%nat
        = Some (Korpo.used
                  (mkCode "PROMO1" (Some "par1") (Some 20%Q) (Some 1000) (Some 9000) (Some 1) 0
                          "active")).
Proof.
  assert (Hid : "u1" ≠ "") by done.
  assert (Huser : "u1" ∈ users shop) by (by vm_compute).
  refine (expired_code_is_redeemed 10000 "PROMO1" "u1" 100%Q shop 0%nat _ 9000
            eq_refl eq_refl _ Hid Huser eq_refl).
  lia.
Defined.

Lemma verify_sees_redemption_witness :
  let d' := (run (Korpo.promoCode_use 5000 "PROMO1" (Some "u1") (Some 100%Q)) shop).1.2 in
  run (Korpo.verifyUser (Some "u1") (Some "PROMO1")) d'
  = (Json 200 (Message "code used already"), d', []).
Proof.
  intros d'.
  destruct (run (Korpo.promoCode_use 5000 "PROMO1" (Some "u1") (Some 100%Q)) shop)
    as [[reply d''] tr] eqn:Hrun.
  assert (reply = Json 200 (body reply)) as Hreply
    by (vm_compute in Hrun; by injection Hrun as <- _ _).
  rewrite Hreply in Hrun.
  assert (Hcode : "PROMO1" ≠ "") by done.
  exact (verify_sees_redemption _ _ _ _ _ _ _ _ Hcode Hrun).
Defined.

(** ** Referral redemption *)

(** What one referral redemption does to [referralTracking]: nothing, or
    one more entry for the calling user and the code, none being there
    before. *)
Lemma referral_use_tracking now code userId amount d reply d' tr :
  run (Server.referralCode_use now code userId amount) d = (reply, d', tr) →
  (d' = d ∧ tr = [] ∧ http reply ≠ 200)
  ∨ ∃ u t,
      required userId = Some u
      ∧ list_find (λ t, rt_userId t = u ∧ rt_referralCode t = code) (referralTracking d) = None
      ∧ referralTracking d' = referralTracking d ++ [t]
      ∧ rt_userId t = u ∧ rt_referralCode t = code.
Proof.
  intros Hrun. unfold Server.referralCode_use in Hrun. monad.
  destruct (required userId) as [u|]; [|left; revert Hrun; go; intros; by simplify_eq].
  revert Hrun. go. destruct (bool_decide (_ ∉ _)); [intros; left; by simplify_eq|].
  go. destruct (list_find _ (referralCodes d)) as [[i c]|]; [|intros; left; by simplify_eq].
  go. cbn [fst snd].
  destruct (bool_decide (c_status c ≠ "active")); [intros; left; by simplify_eq|]. go.
  destruct (match c_validFrom c with Some _ => _ | None => _ end);
    [intros; left; by simplify_eq|]. go.
  destruct (match c_validTo c with Some _ => _ | None => _ end);
    [intros; left; by simplify_eq|]. go.
  destruct (Korpo.usageLimitReached _ _); [intros; left; by simplify_eq|]. go.
  case_bool_decide as Hdup; [intros; left; by simplify_eq|]. go.
  assert (list_find (λ t, rt_userId t = u ∧ rt_referralCode t = code) (referralTracking d)
          = None) as Hnone.
  { destruct (list_find _ _) eqn:E; [|done]. destruct Hdup. by eexists. }
  destruct (required (c_owner c)) as [ambassadorId|]; cbn [mbind option_bind]; go;
    [destruct (ambassadors d !! ambassadorId); go|]; intros; simplify_eq; right;
    (do 2 eexists; split; [reflexivity|]; split; [exact Hnone|]; store; by unfold addDoc).
Qed.

(** The (user, code) pairs of the referral tracking entries. *)
Lemma pair_not_tracked u code (l : list ReferralTracking) :
  list_find (λ t, rt_userId t = u ∧ rt_referralCode t = code) l = None →
  (u, code) ∉ (λ t, (rt_userId t, rt_referralCode t)) <$> l.
Proof.
  intros Hnone Hin. apply list_elem_of_fmap in Hin as (t & Heq & Ht).
  apply list_find_None in Hnone. rewrite Forall_forall in Hnone.
  apply (Hnone t Ht). by injection Heq as <- <-.
Qed.

(** X12.  The referral route keeps at most one tracking entry per
    (user, code) pair.  A user who already has an entry for the code gets
    an error and nothing is written; and if no pair occurs twice in
    [referralTracking] before a call, none does after it, whatever the call
    and its outcome. *)
Theorem referral_redeemed_once now code userId amount d reply d' tr :
  run (Server.referralCode_use now code userId amount) d = (reply, d', tr) →
  (∀ u t, required userId = Some u → t ∈ referralTracking d →
          rt_userId t = u → rt_referralCode t = code →
          d' = d ∧ tr = [] ∧ http reply ≠ 200)
  ∧ (NoDup ((λ t, (rt_userId t, rt_referralCode t)) <$> referralTracking d) →
     NoDup ((λ t, (rt_userId t, rt_referralCode t)) <$> referralTracking d')).
Proof.
  intros Hrun.
  destruct (referral_use_tracking _ _ _ _ _ _ _ _ Hrun)
    as [(-> & -> & Hfail) | (u & t & Hu & Hnone & Htracking & Htu & Htc)].
  - split; [done|done].
  - split.
    + intros u' t' Hu' Hin Htu' Htc'. rewrite Hu in Hu'. injection Hu' as <-.
      apply list_find_None in Hnone. rewrite Forall_forall in Hnone.
      destruct (Hnone t' Hin). done.
    + intros Hnodup. rewrite Htracking, fmap_app. apply NoDup_app. split; [done|].
      split; [|apply NoDup_singleton].
      intros pair Hin Hnew. apply list_elem_of_singleton in Hnew. subst pair.
      rewrite Htu, Htc in Hin. by apply (pair_not_tracked u code (referralTracking d)).
Qed.

Lemma referral_redeemed_once_witness :
  let d1 := (run (Server.referralCode_use 5000 "AMB0001" (Some "u1") (Some 100%Q)) shop).1.2 in
  let '(reply, d', tr) := run (Server.referralCode_use 5001 "AMB0001" (Some "u1") (Some 100%Q)) d1 in
  d' = d1 ∧ tr = [] ∧ http reply ≠ 200.
Proof.
  intros d1.
  destruct (run (Server.referralCode_use 5001 "AMB0001" (Some "u1") (Some 100%Q)) d1)
    as [[reply d'] tr] eqn:Hrun.
  refine (proj1 (referral_redeemed_once _ _ _ _ _ _ _ _ Hrun) "u1"
            (mkReferralTracking "u1" (Some "amb1") "AMB0001" 0 5000 (Some 100%Q) 0.1%Q
               (100 * 0.1)%Q) eq_refl _ eq_refl eq_refl).
  vm_compute. by constructor.
Defined.

(** The store an ambassador status update leaves, when the ambassador has a
    code and a user document. *)
Lemma ambassador_updateStatus_store now u newStatus a d i c :
  u ≠ "" → newStatus ≠ "" →
  u ∈ users d →
  ambassadors d !! u = Some a →
  list_find (λ c, c_owner c = Some u) (referralCodes d) = Some (i, c) →
  let change :=
    if bool_decide (newStatus = "approved") then Server.ambassador_activate now
    else if bool_decide (newStatus = "declined") then Server.with_code_status "inactive"
    else id in
  ∃ tr,
    run (Server.ambassador_updateStatus now (Some u) (Some newStatus)) d
    = (Json 200 (StatusUpdated (Some (c_code c))),
       set_ambassadors (alter (Server.with_status newStatus) u)
         (set_referralCodes (alter change i) d), tr).
Proof.
  intros Hu Hs Huser Ha Hfind change. unfold Server.ambassador_updateStatus. monad.
  rewrite !required_Some by done. go. rewrite Ha. go. rewrite Hfind. go.
  pose proof Hfind as Hfind'. apply list_find_Some in Hfind' as (Hi & _).
  subst change.
  destruct (bool_decide (newStatus = "approved")); go;
    [|destruct (bool_decide (newStatus = "declined")); go];
    rewrite bool_decide_eq_false_2 by (intros ?; done); go; eexists;
    repeat f_equal; unfold set_referralCodes, set_ambassadors; store; try done.
  destruct d; cbn. f_equal. symmetry. apply list_alter_id. done.
Qed.

(** X13.  Declining an ambassador switches the code off and keeps its
    validity window: after the decline, a redemption of the code by any
    registered user is refused with "Referral code is not active", and
    nothing is written. *)
Theorem declined_code_is_refused now now2 u a d i c v amount :
  u ≠ "" → u ∈ users d →
  ambassadors d !! u = Some a →
  list_find (λ c, c_owner c = Some u) (referralCodes d) = Some (i, c) →
  list_find (λ p, c_code p = c_code c) (referralCodes d) = Some (i, c) →
  v ≠ "" → v ∈ users d →
  ∃ d' tr c',
    run (Server.ambassador_updateStatus now (Some u) (Some "declined")) d
    = (Json 200 (StatusUpdated (Some (c_code c))), d', tr)
    ∧ referralCodes d' !! i = Some c'
    ∧ c_status c' = "inactive"
    ∧ c_validFrom c' = c_validFrom c ∧ c_validTo c' = c_validTo c
    ∧ run (Server.referralCode_use now2 (c_code c) (Some v) amount) d'
      = (Json 400 (Error "Referral code is not active"), d', []).
Proof.
  intros Hu Huser Ha Howner Hcode Hv Hvuser.
  destruct (ambassador_updateStatus_store now u "declined" a d i c) as [tr Hrun]; try done.
  rewrite (bool_decide_eq_false_2 ("declined" = "approved")) in Hrun by done.
  rewrite (bool_decide_eq_true_2 ("declined" = "declined")) in Hrun by done.
  pose proof Hcode as Hi. apply list_find_Some in Hi as (Hi & _).
  eexists _, tr, (Server.with_code_status "inactive" c).
  split; [exact Hrun|]. store.
  split; [by rewrite list_lookup_alter, Hi, decide_True|].
  repeat split.
  unfold Server.referralCode_use. monad. rewrite required_Some by done. go.
  rewrite bool_decide_eq_false_2 by (intros ?; done). go.
  rewrite (list_find_alter_same _ _ _ _ _ Hcode) by done. go. cbn [fst snd].
  cbn [Server.with_code_status c_status].
  rewrite bool_decide_eq_true_2 by done. reflexivity.
Qed.

Lemma declined_code_is_refused_witness :
  ∃ d' tr c',
    run (Server.ambassador_updateStatus 5000 (Some "amb1") (Some "declined")) shop
    = (Json 200 (StatusUpdated (Some "AMB0001")), d', tr)
    ∧ referralCodes d' !! 0%nat = Some c'
    ∧ c_status c' = "inactive"
    ∧ c_validFrom c' = Some 1000 ∧ c_validTo c' = Some 9000
    ∧ run (Server.referralCode_use 6000 "AMB0001" (Some "u1") (Some 100%Q)) d'
      = (Json 400 (Error "Referral code is not active"), d', []).
Proof.
  assert (Hu : "amb1" ≠ "") by done.
  assert (Hv : "u1" ≠ "") by done.
  assert (Huser : "amb1" ∈ users shop) by (by vm_compute).
  assert (Hvuser : "u1" ∈ users shop) by (by vm_compute).
  exact (declined_code_is_refused 5000 6000 "amb1" amb1 shop 0%nat
    (mkCode "AMB0001" (Some "amb1") None (Some 1000) (Some 9000) (Some 1) 0 "active")
    "u1" (Some 100%Q) Hu Huser eq_refl eq_refl eq_refl Hv Hvuser).
Defined.

(** X14.  An approval opens the code for a hundred days.  After the
    approval at [now] of an ambassador whose code had no window yet, a
    registered user without an earlier entry for the code redeems it with
    success at any time from [now] to [now + 100 days] (its limit not being
    reached); earlier the answer is "not valid yet", later it is
    "expired", and in both cases nothing is written. *)
Theorem approved_code_is_redeemable now t u a d i c v amount :
  u ≠ "" → u ∈ users d →
  ambassadors d !! u = Some a →
  list_find (λ c, c_owner c = Some u) (referralCodes d) = Some (i, c) →
  list_find (λ p, c_code p = c_code c) (referralCodes d) = Some (i, c) →
  c_validFrom c = None →
  v ≠ "" → v ∈ users d →
  Korpo.usageLimitReached (c_timesUsed c) (c_usageLimit c) = false →
  list_find (λ e, rt_userId e = v ∧ rt_referralCode e = c_code c) (referralTracking d) = None →
  let d' := (run (Server.ambassador_updateStatus now (Some u) (Some "approved")) d).1.2 in
  (now ≤ t ≤ now + 100 * 86400000 →
   ∃ b d'' tr,
     run (Server.referralCode_use t (c_code c) (Some v) amount) d' = (Json 200 b, d'', tr))
  ∧ (t < now →
     run (Server.referralCode_use t (c_code c) (Some v) amount) d'
     = (Json 400 (Error "Referral code is not valid yet"), d', []))
  ∧ (now + 100 * 86400000 < t →
     run (Server.referralCode_use t (c_code c) (Some v) amount) d'
     = (Json 400 (Error "Referral code has expired"), d', [])).
Proof.
  intros Hu Huser Ha Howner Hcode Hunset Hv Hvuser Hlimit Hfresh d'.
  destruct (ambassador_updateStatus_store now u "approved" a d i c) as [tr Hrun]; try done.
  rewrite (bool_decide_eq_true_2 ("approved" = "approved")) in Hrun by done.
  subst d'. rewrite Hrun. cbn [fst snd].
  assert (c_owner c = Some u) as Hc by (by apply list_find_Some in Howner as (_ & ? & _)).
  assert (Server.ambassador_activate now c
          = mkCode (c_code c) (Some u) (c_discount c) (Some now) (Some (now + 100 * 86400000))
                   (c_usageLimit c) (c_timesUsed c) "active") as Hact.
  { unfold Server.ambassador_activate, addDays, msPerDay. by rewrite Hunset, Hc. }
  assert (∀ k : H Reply → H Reply, True) as _ by done.
  repeat split; intros Ht; unfold Server.referralCode_use; monad;
    rewrite required_Some by done; go;
    rewrite bool_decide_eq_false_2 by (intros ?; done); go;
    rewrite (list_find_alter_same _ _ _ _ _ Hcode) by done; go; cbn [fst snd];
    rewrite Hact; cbn [c_status c_validFrom c_validTo c_timesUsed c_usageLimit c_owner c_code];
    rewrite (bool_decide_eq_false_2 ("active" ≠ "active")) by (intros ?; done); go.
  - rewrite !(bool_decide_eq_false_2 (_ < _)) by lia. go.
    rewrite Hlimit. go. rewrite Hfresh.
    rewrite (bool_decide_eq_false_2 (is_Some None)) by (intros [? ?]; done). go.
    rewrite required_Some by done. cbn [mbind option_bind].
    rewrite lookup_alter_eq, Ha. cbn [fmap option_fmap option_map]. go.
    do 3 eexists. reflexivity.
  - rewrite (bool_decide_eq_true_2 (t < now)) by lia. reflexivity.
  - rewrite (bool_decide_eq_false_2 (t < now)) by lia. go.
    rewrite (bool_decide_eq_true_2 (_ < t)) by lia. reflexivity.
Qed.

Lemma approved_code_is_redeemable_witness :
  let d := set_referralCodes
             (λ _, [ mkCode "AMB0001" (Some "amb1") None None None (Some 100) 0 "pending" ])
             shop in
  let d' := (run (Server.ambassador_updateStatus 5000 (Some "amb1") (Some "approved")) d).1.2 in
  ∃ b d'' tr,
    run (Server.referralCode_use 6000 "AMB0001" (Some "u1") (Some 100%Q)) d' = (Json 200 b, d'', tr).
Proof.
  intros d d'.
  assert (Hu : "amb1" ≠ "") by done.
  assert (Hv : "u1" ≠ "") by done.
  assert (Huser : "amb1" ∈ users d) by (by vm_compute).
  assert (Hvuser : "u1" ∈ users d) by (by vm_compute).
  refine (proj1 (approved_code_is_redeemable 5000 6000 "amb1" amb1 d 0%nat
    (mkCode "AMB0001" (Some "amb1") None None None (Some 100) 0 "pending")
    "u1" (Some 100%Q) Hu Huser eq_refl eq_refl eq_refl eq_refl Hv Hvuser eq_refl eq_refl) _).
  vm_compute. split; discriminate.
Defined.

(** ** The ledger *)







(** X17.  A referral redemption credits the ambassador of the code with
    [amount * commissionRate] (the rate of the profile, or 0.1): the
    available balance and the all-time revenue grow by that commission and
    the referral counter by one, the answer reports the commission, and no
    other ambassador document changes.  Without an amount, or with an
    amount of zero, the commission is zero but the referral still counts
    and still uses up the code once. *)
Theorem referral_credit now code userId amount d b d' tr i c ambassadorId a :
  run (Server.referralCode_use now code userId amount) d = (Json 200 b, d', tr) →
  list_find (λ p, c_code p = code) (referralCodes d) = Some (i, c) →
  required (c_owner c) = Some ambassadorId →
  ambassadors d !! ambassadorId = Some a →
  let rate := default 0.1%Q (r_commissionRate a) in
  let earned := if Server.truthy amount then (or0 amount * rate)%Q else 0%Q in
  b = ReferralUsed earned rate (c_timesUsed c + 1)
  ∧ referralCodes d' !! i = Some (Korpo.used c)
  ∧ (∃ a',
       ambassadors d' !! ambassadorId = Some a'
       ∧ r_availableBalance a' = Some (or0 (r_availableBalance a) + earned)%Q
       ∧ r_totalRevenue a' = Some (or0 (r_totalRevenue a) + earned)%Q
       ∧ r_totalReferrals a' = Some (default 0 (r_totalReferrals a) + 1))
  ∧ (∀ other, other ≠ ambassadorId → ambassadors d' !! other = ambassadors d !! other)
  ∧ (Server.truthy amount = false → earned = 0%Q).
Proof.
  intros Hrun Hfind Howner Ha rate earned.
  pose proof Hfind as Hi. apply list_find_Some in Hi as (Hi & _).
  unfold Server.referralCode_use in Hrun. monad.
  destruct (required userId) as [u|]; [|revert Hrun; go; intros; by simplify_eq].
  revert Hrun. go. destruct (bool_decide (_ ∉ _)); [intros; by simplify_eq|].
  go. rewrite Hfind. go. cbn [fst snd].
  destruct (bool_decide (c_status c ≠ "active")); [intros; by simplify_eq|]. go.
  destruct (match c_validFrom c with Some _ => _ | None => _ end); [intros; by simplify_eq|]. go.
  destruct (match c_validTo c with Some _ => _ | None => _ end); [intros; by simplify_eq|]. go.
  destruct (Korpo.usageLimitReached _ _); [intros; by simplify_eq|]. go.
  destruct (bool_decide (is_Some _)); [intros; by simplify_eq|]. go.
  rewrite Howner. cbn [mbind option_bind]. rewrite Ha. go.
  intros Hrun. simplify_eq. store. subst rate earned.
  split; [done|]. split; [by unfold updateAt; rewrite list_lookup_alter, Hi, decide_True|].
  split.
  - eexists. rewrite lookup_alter_eq, Ha. split; [reflexivity|]. done.
  - split; [|by intros ->].
    intros other Hne. by rewrite lookup_alter_ne.
Qed.

Lemma referral_credit_witness :
  ∃ a',
    ambassadors (run (Server.referralCode_use 5000 "AMB0001" (Some "u1") (Some 100%Q)) shop).1.2
      !! "amb1" = Some a'
    ∧ r_availableBalance a' = Some (150.456 + 100 * 0.1)%Q.
Proof.
  destruct (run (Server.referralCode_use 5000 "AMB0001" (Some "u1") (Some 100%Q)) shop)
    as [[reply d'] tr] eqn:Hrun.
  assert (reply = Json 200 (body reply)) as Hreply
    by (vm_compute in Hrun; by injection Hrun as <- _ _).
  rewrite Hreply in Hrun.
  destruct (referral_credit _ _ _ _ _ _ _ _ 0%nat
              (mkCode "AMB0001" (Some "amb1") None (Some 1000) (Some 9000) (Some 1) 0 "active")
              "amb1" amb1 Hrun eq_refl eq_refl eq_refl) as (_ & _ & (a' & Ha' & Hbal & _) & _).
  exists a'. split; [exact Ha'|exact Hbal].
Defined.

(** X18.  In [korpo.js] a promo redemption credits [totalPartnerRevenue]
    and mirrors the code's counters on the partner ([timesUsed] is the
    code's new count and, for a positive limit, [leftPromo] is what is left
    of it), but it never changes [commissionEarned] nor the linked account
    of any partner, nor any ambassador document: the fields the payout
    routes of the same file read are as they were before the redemption. *)
Theorem korpo_redemption_credits_no_payout now code userId amount d reply d' tr :
  run (Korpo.promoCode_use now code userId amount) d = (reply, d', tr) →
  ambassadors d' = ambassadors d
  ∧ (∀ id, r_commissionEarned <$> partners d' !! id = r_commissionEarned <$> partners d !! id)
  ∧ (∀ id, r_connectAccountId <$> partners d' !! id = r_connectAccountId <$> partners d !! id)
  ∧ (http reply = 200 →
     ∀ i c partnerId p,
       list_find (λ p, c_code p = code) (promoCodes d) = Some (i, c) →
       required (c_owner c) = Some partnerId →
       partners d !! partnerId = Some p →
       ∃ p' share,
         partners d' !! partnerId = Some p'
         ∧ share = default 30%Q (r_commission p)
         ∧ r_totalRevenue p'
           = Some (or0 (r_totalRevenue p)
                   + (or0 amount - or0 amount * or0 (c_discount c) / 100) * share / 100)%Q
         ∧ r_timesUsed p' = Some (c_timesUsed c + 1)
         ∧ (∀ N, c_usageLimit c = Some N → 0 < N →
                 r_leftPromo p' = Some (N - (c_timesUsed c + 1)) ∧ r_totalPromo p' = Some N)).
Proof.
  intros Hrun. unfold Korpo.promoCode_use in Hrun. monad.
  destruct (required userId); [|revert Hrun; go; intros; by simplify_eq].
  destruct amount as [a|]; [|revert Hrun; go; intros; by simplify_eq].
  revert Hrun. go. destruct (bool_decide _); [intros; by simplify_eq|]. go.
  destruct (list_find _ (promoCodes d)) as [[i c]|] eqn:Hfind; [|intros; by simplify_eq].
  go. cbn [fst snd].
  destruct (Korpo.usageLimitReached _ _); [intros; by simplify_eq|]. go.
  destruct (required (c_owner c)) as [partnerId|] eqn:Howner; cbn [mbind option_bind]; go;
    [destruct (partners d !! partnerId) as [p|] eqn:Hp; go|]; intros; simplify_eq; store.
  all: split; [done|].
  - split; [|split].
    + intros id. destruct (decide (id = partnerId)) as [->|Hne];
        [by rewrite lookup_alter_eq, Hp | by rewrite lookup_alter_ne].
    + intros id. destruct (decide (id = partnerId)) as [->|Hne];
        [by rewrite lookup_alter_eq, Hp | by rewrite lookup_alter_ne].
    + intros _ i' c' partnerId' p' Hfind' Howner' Hp'. simplify_eq.
      eexists _, _. rewrite lookup_alter_eq, Hp. split; [reflexivity|].
      split; [reflexivity|]. cbn [Korpo.credited r_totalRevenue r_timesUsed r_leftPromo
                                    r_totalPromo increment or0 default from_option id].
      split; [done|]. split; [done|].
      intros N HN Hpos. rewrite HN. cbn [default from_option id].
      by rewrite !bool_decide_eq_true_2.
  - repeat split; try done. intros _ i' c' partnerId' p' Hfind' Howner' Hp'. simplify_eq.
  - repeat split; try done. intros _ i' c' partnerId' p' Hfind' Howner' Hp'. simplify_eq.
Qed.

Lemma korpo_redemption_credits_no_payout_witness :
  let d' := (run (Korpo.promoCode_use 5000 "PROMO1" (Some "u1") (Some 100%Q)) shop).1.2 in
  ambassadors d' = ambassadors shop
  ∧ r_commissionEarned <$> partners d' !! "par1" = r_commissionEarned <$> partners shop !! "par1".
Proof.
  intros d'. subst d'.
  destruct (run (Korpo.promoCode_use 5000 "PROMO1" (Some "u1") (Some 100%Q)) shop)
    as [[reply d'] tr] eqn:Hrun.
  destruct (korpo_redemption_credits_no_payout _ _ _ _ _ _ _ _ Hrun) as (Hamb & Hearned & _).
  split; [exact Hamb | exact (Hearned "par1")].
Defined.

(** ** Payout requests *)

(** X19.  A payout request calls no transfer and changes no ambassador or
    partner document.  It is accepted only for a known ambassador whose
    linked account is the one named and whose [commissionEarned] is
    positive; it then adds one pending request holding that amount, and a
    request that is refused has no effect at all.  Nothing is reserved: the
    same request made again right after is accepted again. *)
Theorem payout_request_reserves_nothing now now2 ambassadorId connectedAccountId d reply d' tr :
  run (Korpo.requestPayoutForAmbassador now ambassadorId connectedAccountId) d
  = (reply, d', tr) →
  transfers tr = []
  ∧ ambassadors d' = ambassadors d ∧ partners d' = partners d
  ∧ (http reply ≠ 200 → d' = d ∧ tr = [])
  ∧ (http reply = 200 →
     ∃ u acct a,
       ambassadorId = Some u ∧ connectedAccountId = Some acct
       ∧ ambassadors d !! u = Some a
       ∧ r_connectAccountId a = Some acct
       ∧ (0 < or0 (r_commissionEarned a))%Q
       ∧ reply = Json 200 (PayoutRequested (length (ambassadorPayouts d))
                             (or0 (r_commissionEarned a)))
       ∧ ambassadorPayouts d'
         = ambassadorPayouts d
           ++ [mkPayout u acct (or0 (r_commissionEarned a)) "pending" now None None None]
       ∧ (run (Korpo.requestPayoutForAmbassador now2 ambassadorId connectedAccountId) d').1.1
         = Json 200 (PayoutRequested (S (length (ambassadorPayouts d)))
                       (or0 (r_commissionEarned a)))).
Proof.
  intros Hrun. unfold Korpo.requestPayoutForAmbassador in Hrun. monad.
  destruct (required ambassadorId) as [u|] eqn:Hu;
    [|revert Hrun; go; intros; simplify_eq; repeat split; done].
  destruct (required connectedAccountId) as [acct|] eqn:Hacct;
    [|revert Hrun; go; intros; simplify_eq; repeat split; done].
  revert Hrun. go.
  destruct (ambassadors d !! u) as [a|] eqn:Ha;
    [|go; intros; simplify_eq; repeat split; done].
  go. case_bool_decide as Hconn; [go; intros; simplify_eq; repeat split; done|]. go.
  destruct (Qle_bool _ 0) eqn:Hbal; [go; intros; simplify_eq; repeat split; done|]. go.
  intros Hrun. simplify_eq. store.
  assert (ambassadorId = Some u) as ->.
  { unfold required in Hu. destruct (missing ambassadorId); by simplify_eq. }
  assert (connectedAccountId = Some acct) as ->.
  { unfold required in Hacct. destruct (missing connectedAccountId); by simplify_eq. }
  repeat split; try done.
  intros _. exists u, acct, a. repeat split; try done.
  - destruct (Qlt_le_dec 0 (or0 (r_commissionEarned a))) as [?|Hle]; [done|].
    apply Qle_bool_iff in Hle. congruence.
  - unfold Korpo.requestPayoutForAmbassador. monad. rewrite Hu, Hacct. go.
    rewrite Ha. go. rewrite bool_decide_eq_false_2 by (intros ?; done). go.
    rewrite Hbal. go. cbn [fst]. unfold addDoc. rewrite length_app. cbn [length].
    by rewrite Nat.add_1_r.
Qed.

Lemma payout_request_reserves_nothing_witness :
  let '(reply, d', tr) :=
    run (Korpo.requestPayoutForAmbassador 5000 (Some "amb1") (Some "acct_amb")) shop in
  transfers tr = [] ∧ ambassadors d' = ambassadors shop ∧ partners d' = partners shop.
Proof.
  destruct (run (Korpo.requestPayoutForAmbassador 5000 (Some "amb1") (Some "acct_amb")) shop)
    as [[reply d'] tr] eqn:Hrun.
  destruct (payout_request_reserves_nothing 5000 6000 _ _ _ _ _ _ Hrun) as (H1 & H2 & H3 & _).
  repeat split; assumption.
Defined.

(** ** [generateRandomCode] *)

Lemma length_append (s t : string) :
  String.length (s +:+ t) = (String.length s + String.length t)%nat.
Proof. induction s as [|c s IH]; [done|]. simpl. f_equal. exact IH. Qed.

Lemma chars_has (j : nat) : (j < 36)%nat → ∃ c, String.get j chars = Some c.
Proof.
  intros Hj. do 36 (destruct j as [|j]; [by eexists|]). lia.
Qed.

Lemma generateRandomCode_loop_shape random :
  (∀ i, (random i < 36)%nat) →
  ∀ remaining i code,
    let result := generateRandomCode_loop random i remaining code in
    String.length result = (String.length code + remaining)%nat
    ∧ (∀ k, (k < String.length code)%nat → String.get k result = String.get k code)
    ∧ (∀ k c, (String.length code ≤ k)%nat → String.get k result = Some c →
              ∃ j, String.get j chars = Some c).
Proof.
  intros Hrandom. induction remaining as [|remaining IH]; intros i code result; subst result.
  - cbn [generateRandomCode_loop]. split; [lia|]. split; [done|].
    intros k c Hk Hget. assert (String.get k code = None) as Hnone; [|congruence].
    clear -Hk. revert k Hk. induction code as [|a code IH]; intros k Hk; [by destruct k|].
    destruct k as [|k]; cbn in *; [lia|]. apply IH. lia.
  - cbn [generateRandomCode_loop].
    destruct (chars_has (random i) (Hrandom i)) as [c0 Hc0].
    assert (charAt chars (random i) = String c0 "") as Hchar by (unfold charAt; by rewrite Hc0).
    rewrite Hchar.
    destruct (IH (S i) (code +:+ String c0 "")) as (Hlen & Hkeep & Hnew).
    rewrite length_append in Hlen, Hkeep, Hnew. cbn [String.length] in Hlen, Hkeep, Hnew.
    split; [lia|]. split.
    + intros k Hk. rewrite Hkeep by lia. symmetry. by apply append_correct1.
    + intros k c Hk Hget.
      destruct (decide (k = String.length code)) as [->|Hne].
      * rewrite Hkeep in Hget by lia.
        pose proof (append_correct2 code (String c0 "") 0) as Hlast.
        rewrite Nat.add_0_l in Hlast. rewrite <- Hlast in Hget.
        cbn in Hget. exists (random i). congruence.
      * apply (Hnew k c); [lia|done].
Qed.

(** X20.  A generated code starts with ["AMB"], has three characters more
    than the length asked for (nine characters by default), and every
    character after the prefix is an upper-case letter or a digit of the
    alphabet. *)
Theorem generated_code_shape random length :
  (∀ i, (random i < 36)%nat) →
  let code := generateRandomCode random length in
  String.length code = (3 + default 6%nat length)%nat
  ∧ String.substring 0 3 code = "AMB"
  ∧ (∀ k c, (3 ≤ k)%nat → String.get k code = Some c → ∃ j, String.get j chars = Some c).
Proof.
  intros Hrandom code. subst code. unfold generateRandomCode.
  destruct (generateRandomCode_loop_shape random Hrandom (default 6%nat length) 0 "AMB")
    as (Hlen & Hkeep & Hnew).
  split; [exact Hlen|]. split; [|exact Hnew].
  pose proof (Hkeep 0%nat) as H0. pose proof (Hkeep 1%nat) as H1. pose proof (Hkeep 2%nat) as H2.
  cbn in H0, H1, H2.
  destruct (generateRandomCode_loop random 0 (default 6%nat length) "AMB") as [|a [|b [|c r]]];
    cbn in *; try lia.
  specialize (H0 ltac:(lia)). specialize (H1 ltac:(lia)). specialize (H2 ltac:(lia)).
  simplify_eq. by destruct r.
Qed.

Lemma generated_code_shape_witness :
  String.length (generateRandomCode (λ i, (7 * i) `mod` 36)%nat None) = 9%nat
  ∧ String.substring 0 3 (generateRandomCode (λ i, (7 * i) `mod` 36)%nat None) = "AMB".
Proof.
  destruct (generated_code_shape (λ i, (7 * i) `mod` 36)%nat None) as (Hlen & Hprefix & _).
  - intros i. apply Nat.mod_upper_bound. lia.
  - split; [exact Hlen | exact Hprefix].
Defined.
